(** * Conway's Game of Life on the GPU: the generation-update kernel

    A shallow embedding of [kernel.cu]: the [updateGrid] CUDA kernel, the
    grid initialiser and the frame loop of [main], followed by the
    properties of the generation update (rule, toroidal neighbour count,
    bounds safety, double buffering, partition invariance, gliders). *)

From stdpp Require Import base option list list_numbers.
From Stdlib Require Import ZArith Lia.

Local Open Scope Z_scope.

(** ** Machine integers *)

(** [int] is a 32-bit two's complement integer.  Arithmetic is written in
    [Z] and wrapped back into the representable range after every
    operation. *)
Module CInt.
Definition INT_MAX : Z := 2147483647.
Definition INT_MIN : Z := -2147483648.

Definition wrap (z : Z) : Z := (z + 2147483648) mod 4294967296 - 2147483648.

Definition add (a b : Z) : Z := wrap (a + b).
Definition mul (a b : Z) : Z := wrap (a * b).
(* [/] and [%] of C++ truncate towards zero *)
Definition div (a b : Z) : Z := wrap (Z.quot a b).
Definition rem (a b : Z) : Z := Z.rem a b.

Definition in_range (z : Z) : Prop := INT_MIN <= z <= INT_MAX.
End CInt.

(** [unsigned int], the type of [blockIdx], [blockDim] and [threadIdx]. *)
Module UInt.
Definition wrap (z : Z) : Z := z mod 4294967296.
Definition add (a b : Z) : Z := wrap (a + b).
Definition mul (a b : Z) : Z := wrap (a * b).
End UInt.

(** [unsigned char]: the value kept by a store into a cell. *)
Definition to_uchar (z : Z) : Z := z mod 256.

(** ** Device memory *)

(** The program owns two device allocations ([cudaMalloc], twice).  A
    device pointer names one of them; [d_grid] and [d_newGrid] are
    variables holding such pointers, exchanged after every launch. *)
Inductive devptr : Set := Alloc0 | Alloc1.

Global Instance devptr_eq_dec : EqDecision devptr.
Proof. solve_decision. Defined.

Record device : Type := mkDevice { mem0 : list Z; mem1 : list Z }.

Definition deref (m : device) (p : devptr) : list Z :=
  match p with Alloc0 => mem0 m | Alloc1 => mem1 m end.

Definition assign (m : device) (p : devptr) (b : list Z) : device :=
  match p with
  | Alloc0 => mkDevice b (mem1 m)
  | Alloc1 => mkDevice (mem0 m) b
  end.

(** Indexing a raw array: [None] stands for an access outside the
    allocation. *)
Definition index (b : list Z) (i : Z) : option Z :=
  if 0 <=? i then b !! Z.to_nat i else None.

Definition update (b : list Z) (i : Z) (v : Z) : option (list Z) :=
  if (0 <=? i) && (i <? Z.of_nat (length b))
  then Some (<[Z.to_nat i := to_uchar v]> b)
  else None.

Definition load (m : device) (p : devptr) (i : Z) : option Z :=
  index (deref m p) i.

Definition store (m : device) (p : devptr) (i : Z) (v : Z) : option device :=
  b ← update (deref m p) i v; Some (assign m p b).

(** A [for] loop over the successive values [l] of its variable, threading
    the loop state and stopping at the first failing access. *)
Fixpoint for_each {A S : Type} (l : list A) (body : A → S → option S) (s : S)
  : option S :=
  match l with
  | [] => Some s
  | i :: l' => s' ← body i s; for_each l' body s'
  end.

(** ** The kernel [updateGrid] *)

(** The values taken by [dy] and by [dx]: [for (d = -1; d <= 1; d++)]. *)
Definition offsets : list Z := [-1; 0; 1].

(** Body of the inner loop (lines 30-33) for one [(dy, dx)]. *)
Definition visit (d_grid : devptr) (width height x y : Z) (m : device)
    (dy dx : Z) (count : Z) : option Z :=
  if (dx =? 0) && (dy =? 0) then Some count
  else
    let nx := CInt.rem (CInt.add (CInt.add x dx) width) width in
    let ny := CInt.rem (CInt.add (CInt.add y dy) height) height in
    v ← load m d_grid (CInt.add (CInt.mul ny width) nx);
    Some (CInt.add count v).

(** The two nested loops (lines 25-35): the value of [count] after them. *)
Definition count_neighbors (d_grid : devptr) (width height x y : Z)
    (m : device) : option Z :=
  for_each offsets
    (λ dy, for_each offsets (visit d_grid width height x y m dy)) 0.

(** One thread of the kernel, at the coordinate [(x, y)] it computed from
    its block and thread indices (lines 23-41).  The condition of line 38
    short-circuits: [d_grid[idx]] is read only when [count] is 2. *)
Definition updateGrid (d_grid d_newGrid : devptr) (width height : Z)
    (x y : Z) (m : device) : option device :=
  if (x <? width) && (y <? height) then
    let idx := CInt.add (CInt.mul y width) x in
    count ← count_neighbors d_grid width height x y m;
    alive ← (if count =? 3 then Some true
             else if count =? 2
                  then c ← load m d_grid idx; Some (negb (c =? 0))
                  else Some false);
    store m d_newGrid idx (if alive : bool then 1 else 0)
  else Some m.

(** Lines 20-21: [blockIdx.x * blockDim.x + threadIdx.x], computed in
    [unsigned int] and converted to [int]. *)
Definition global_index (blockIdx blockDim threadIdx : Z) : Z :=
  CInt.wrap (UInt.add (UInt.mul blockIdx blockDim) threadIdx).

(** ** Tiles and kernel launches *)

(** A tile is the list of coordinates one parallel unit evaluates; the
    units of a launch are run one after the other, in the order given. *)
Definition coord : Type := Z * Z.

Definition run_tile (d_grid d_newGrid : devptr) (width height : Z)
    (tile : list coord) (m : device) : option device :=
  for_each tile (λ c, updateGrid d_grid d_newGrid width height c.1 c.2) m.

Definition run_tiles (d_grid d_newGrid : devptr) (width height : Z)
    (tiles : list (list coord)) (m : device) : option device :=
  for_each tiles (run_tile d_grid d_newGrid width height) m.

(** [0, 1, ..., n-1] *)
Definition range (n : Z) : list Z := seqZ 0 n.

(** The threads of the block [(bx, by)] of a launch with [blockDim]. *)
Definition cuda_block (blockDim : Z * Z) (b : Z * Z) : list coord :=
  ty ← range blockDim.2;
  tx ← range blockDim.1;
  [(global_index b.1 blockDim.1 tx, global_index b.2 blockDim.2 ty)].

(** The blocks of a launch [<<<gridDim, blockDim>>>]. *)
Definition cuda_tiles (gridDim blockDim : Z * Z) : list (list coord) :=
  by_ ← range gridDim.2;
  bx ← range gridDim.1;
  [cuda_block blockDim (bx, by_)].

Definition launch_updateGrid (gridDim blockDim : Z * Z)
    (d_grid d_newGrid : devptr) (width height : Z) (m : device)
  : option device :=
  run_tiles d_grid d_newGrid width height (cuda_tiles gridDim blockDim) m.

(** The whole grid as one tile, row by row. *)
Definition all_cells (width height : Z) : list coord :=
  y ← range height; x ← range width; [(x, y)].

(** ** The host program *)

Definition GRID_WIDTH : Z := 100.
Definition GRID_HEIGHT : Z := 80.
Definition BLOCK_SIZE : Z := 2.
Definition UPDATE_FREQUENCY : Z := 6.

(** [initializeGrid] (lines 45-55).  [dis] is the sequence of values the
    successive calls [dis(gen)] return; the loop state is the array and
    the number of calls made so far, and [init_body] is the body of the
    loop (line 52). *)
Definition init_body (dis : nat → Z) (i : Z) (st : list Z * nat)
  : option (list Z * nat) :=
  let '(g, k) := st in g' ← update g i (dis k); Some (g', S k).

Definition initializeGrid (dis : nat → Z) (grid : list Z) (width height : Z)
  : option (list Z) :=
  fst <$> for_each (range (CInt.mul width height)) (init_body dis) (grid, O).

(** [cudaMemcpy(dst, src, n)] on arrays of [unsigned char]. *)
Definition memcpy (dst src : list Z) (n : Z) : option (list Z) :=
  if (0 <=? n) && (n <=? Z.of_nat (length src)) && (n <=? Z.of_nat (length dst))
  then Some (take (Z.to_nat n) src ++ drop (Z.to_nat n) dst)
  else None.

(** The variables of [main] that the frame loop reads or writes.  [swaps]
    is a ghost field: it counts the executions of the pointer exchange of
    lines 112-114 and is read by no statement. *)
Record sim : Type := mkSim {
  d_grid : devptr;
  d_newGrid : devptr;
  dev : device;
  h_grid : list Z;
  frameCount : Z;
  swaps : nat
}.

(** Lines 79-96 for a [width] x [height] grid.  [host0], [junk0] and
    [junk1] are the contents the three fresh allocations happen to have. *)
Definition setup (width height : Z) (dis : nat → Z) (host0 junk0 junk1 : list Z)
  : option sim :=
  h ← initializeGrid dis host0 width height;
  d ← memcpy junk0 h (CInt.mul width height);
  Some (mkSim Alloc0 Alloc1 (mkDevice d junk1) h 0 O).

(** Lines 91-92 and 110-116: launch the kernel, exchange the two pointers,
    copy the new current buffer back to the host. *)
Definition generation (width height : Z) (s : sim) : option sim :=
  let blockSize := (BLOCK_SIZE, BLOCK_SIZE) in
  let gridSize :=
    (CInt.div (CInt.add (CInt.add width BLOCK_SIZE) (-1)) BLOCK_SIZE,
     CInt.div (CInt.add (CInt.add height BLOCK_SIZE) (-1)) BLOCK_SIZE) in
  m ← launch_updateGrid gridSize blockSize
         (d_grid s) (d_newGrid s) width height (dev s);
  let temp := d_grid s in
  h ← memcpy (h_grid s) (deref m (d_newGrid s)) (CInt.mul width height);
  Some (mkSim (d_newGrid s) temp m h (frameCount s) (S (swaps s))).

(** One iteration of the frame loop (lines 107-138); rendering reads
    [h_grid] and changes none of these variables. *)
Definition frame (width height : Z) (s : sim) : option sim :=
  s' ← (if CInt.rem (frameCount s) UPDATE_FREQUENCY =? 0
        then generation width height s
        else Some s);
  Some (mkSim (d_grid s') (d_newGrid s') (dev s') (h_grid s')
              (CInt.add (frameCount s') 1) (swaps s')).

(** [n] iterations of a loop body. *)
Fixpoint iterate {S : Type} (n : nat) (step : S → option S) (s : S)
  : option S :=
  match n with
  | O => Some s
  | S n' => s' ← step s; iterate n' step s'
  end.

(** The frame loop of [main], left after [n] iterations. *)
Definition run_frames (n : nat) (s : sim) : option sim :=
  iterate n (frame GRID_WIDTH GRID_HEIGHT) s.

(** The current buffer and the next buffer of a state. *)
Definition current (s : sim) : list Z := deref (dev s) (d_grid s).
Definition next (s : sim) : list Z := deref (dev s) (d_newGrid s).

(** ** Cells, neighbourhoods and the rule, as the specification words them *)

(** The value stored for the cell [c = (x, y)], at row-major index
    [y * width + x]. *)
Definition cell (width : Z) (g : list Z) (c : coord) : Z :=
  default 0 (index g (c.2 * width + c.1)).

Definition alive (width : Z) (g : list Z) (c : coord) : bool :=
  negb (cell width g c =? 0).

(** The eight displacements [(dx, dy)], in the order the loops visit them. *)
Definition neighborhood : list (Z * Z) :=
  [(-1, -1); (0, -1); (1, -1); (-1, 0); (1, 0); (-1, 1); (0, 1); (1, 1)].

Definition wrap_coord (width height : Z) (c : coord) (d : Z * Z) : coord :=
  ((c.1 + d.1 + width) mod width, (c.2 + d.2 + height) mod height).

Definition torus_neighbors (width height : Z) (c : coord) : list coord :=
  wrap_coord width height c <$> neighborhood.

(** The number of live cells among the eight wrapped neighbours. *)
Definition live_neighbors (width height : Z) (g : list Z) (c : coord) : Z :=
  Z.of_nat (length (filter (λ n, alive width g n = true)
                            (torus_neighbors width height c))).

(** The sum of the raw bytes of the eight wrapped neighbours, accumulated
    in an [int]. *)
Definition neighbor_sum (width height : Z) (g : list Z) (c : coord) : Z :=
  foldl (λ count n, CInt.add count (cell width g n)) 0
        (torus_neighbors width height c).

(** The update rule on a cell state and a neighbour count. *)
Definition rule (live : bool) (count : Z) : bool :=
  (count =? 3) || ((count =? 2) && live).

Definition of_bool (b : bool) : Z := if b then 1 else 0.

(** The cell [c] of the next generation, and the whole next generation. *)
Definition next_cell (width height : Z) (g : list Z) (c : coord) : Z :=
  of_bool (rule (alive width g c) (neighbor_sum width height g c)).

(** The coordinate stored at a row-major index, and the buffer whose
    cells are given by a function of the coordinate. *)
Definition coord_of (width : Z) (i : Z) : coord := (i mod width, i / width).

Definition tabulate (width height : Z) (f : coord → Z) : list Z :=
  (λ i, f (coord_of width i)) <$> range (width * height).

Definition next_gen (width height : Z) (g : list Z) : list Z :=
  tabulate width height (next_cell width height g).

(** The cell [(x, y)] of the buffer [b] holds the next state of the cell
    [(x, y)] of [g]. *)
Definition settled (width height : Z) (g b : list Z) (x y : Z) : Prop :=
  b !! Z.to_nat (y * width + x) = Some (next_cell width height g (x, y)).

(** Dimensions for which the index arithmetic of the kernel stays within
    [int]: both extents positive, [width * height] (the size of the
    buffers), [x + 1 + width] and [y + 1 + height] representable. *)
Definition dims_ok (width height : Z) : Prop :=
  0 < width ∧ 0 < height ∧ width * height <= CInt.INT_MAX
  ∧ width + width <= CInt.INT_MAX ∧ height + height <= CInt.INT_MAX.

Definition sized (width height : Z) (g : list Z) : Prop :=
  Z.of_nat (length g) = width * height.

(** Every cell is 0 or 1. *)
Definition binary (g : list Z) : Prop := Forall (λ v, v = 0 ∨ v = 1) g.

(** Every cell is dead. *)
Definition all_dead (g : list Z) : Prop := Forall (λ v, v = 0) g.

(** A tiling is valid when its tiles are disjoint and cover every cell of
    the grid exactly once.  Its coordinates are thread coordinates, hence
    non-negative; as in a CUDA launch whose blocks overhang the grid, a
    tile may hold coordinates beyond the last column or row. *)
Definition valid_tiling (width height : Z) (tiles : list (list coord)) : Prop :=
  (∀ c, c ∈ mjoin tiles → 0 <= c.1 ∧ 0 <= c.2)
  ∧ NoDup (mjoin tiles)
  ∧ (∀ x y, 0 <= x < width → 0 <= y < height → (x, y) ∈ mjoin tiles).

(** The invariant of the frame loop on the variables of [main]: the two
    pointers name different allocations and the three arrays have the size
    of the grid. *)
Definition wf_sim (width height : Z) (s : sim) : Prop :=
  d_grid s ≠ d_newGrid s
  ∧ sized width height (current s) ∧ sized width height (next s)
  ∧ sized width height (h_grid s).

(** [o] is counted among the neighbours of [c]: [o] is one of the eight
    wrapped positions, one iteration of the loops of the thread at [c]
    adds the byte of [o] to [count], and on a grid of cells 0 or 1 the
    count returned is the number of live neighbours, at least 1 when [o]
    is alive. *)
Definition counted (width height : Z) (p : devptr) (m : device) (c o : coord)
  : Prop :=
  o ∈ torus_neighbors width height c
  ∧ (∃ dx dy, dx ∈ offsets ∧ dy ∈ offsets ∧ (dx, dy) ≠ (0, 0)
       ∧ ∀ n, visit p width height c.1 c.2 m dy dx n
              = Some (CInt.add n (cell width (deref m p) o)))
  ∧ (binary (deref m p) →
     count_neighbors p width height c.1 c.2 m
     = Some (live_neighbors width height (deref m p) c)
     ∧ (alive width (deref m p) o = true →
        1 <= live_neighbors width height (deref m p) c)).

(** The number of frames among the first [k] whose counter is a multiple
    of [UPDATE_FREQUENCY]. *)
Definition updates_before (k : Z) : Z :=
  (k + (UPDATE_FREQUENCY - 1)) / UPDATE_FREQUENCY.

(** ** Patterns *)

(** A pattern is a finite set of live cells of the unbounded plane. *)
Definition pattern : Type := list coord.

(** The glider that travels towards increasing [x] and [y]. *)
Definition glider : pattern := [(1, 0); (2, 1); (0, 2); (1, 2); (2, 2)].

Definition translate (d : Z * Z) (P : pattern) : pattern :=
  (λ c, (c.1 + d.1, c.2 + d.2)) <$> P.

(** Whether the torus cell [c] is one of the cells of [P] placed with its
    origin at [o], both axes taken modulo the extent of the grid. *)
Definition covers (width height : Z) (P : pattern) (o : coord) (c : coord) : bool :=
  existsb (λ a, ((o.1 + a.1) mod width =? c.1) && ((o.2 + a.2) mod height =? c.2)) P.

(** The buffer of the grid whose live cells are exactly those of [P]
    placed at [o]. *)
Definition place (width height : Z) (P : pattern) (o : coord) : list Z :=
  tabulate width height (λ c, of_bool (covers width height P o c)).

(** One generation of a pattern on the unbounded plane, for a pattern
    within the square [[0, m) x [0, m)]: the cells of the square widened
    by one that the rule makes alive. *)
Definition member (P : pattern) (a b : Z) : bool :=
  existsb (λ c, (c.1 =? a) && (c.2 =? b)) P.

Definition plane_count (P : pattern) (a b : Z) : Z :=
  foldl (λ n d, n + of_bool (member P (a + d.1) (b + d.2))) 0 neighborhood.

Definition plane_next (P : pattern) (a b : Z) : bool :=
  rule (member P a b) (plane_count P a b).

Definition widened (m : Z) : list coord :=
  b ← seqZ (-1) (m + 2); a ← seqZ (-1) (m + 2); [(a, b)].

Definition plane_step (m : Z) (P : pattern) : pattern :=
  filter (λ c, plane_next P c.1 c.2 = true) (widened m).

Definition within (m : Z) (P : pattern) : bool :=
  forallb (λ c, (0 <=? c.1) && (c.1 <? m) && (0 <=? c.2) && (c.2 <? m)) P.

(** ** Sample data *)

(** A 4 x 4 grid with three live cells, and a device whose current buffer
    it is while the next buffer holds leftovers. *)
Definition sample_grid : list Z :=
  [0; 0; 0; 0;
   0; 1; 1; 0;
   0; 1; 0; 0;
   0; 0; 0; 0].

Definition sample_device : device := mkDevice sample_grid (replicate 16 7).

(** A blinker on a 5 x 5 grid, upright and lying. *)
Definition blinker_upright : list Z :=
  [0; 0; 0; 0; 0;
   0; 0; 1; 0; 0;
   0; 0; 1; 0; 0;
   0; 0; 1; 0; 0;
   0; 0; 0; 0; 0].

Definition blinker_lying : list Z :=
  [0; 0; 0; 0; 0;
   0; 0; 0; 0; 0;
   0; 1; 1; 1; 0;
   0; 0; 0; 0; 0;
   0; 0; 0; 0; 0].

Definition blinker_sim : sim :=
  mkSim Alloc0 Alloc1 (mkDevice blinker_upright (replicate 25 7))
        blinker_upright 0 O.

(** The grid of [main] with every cell dead, and a block of device memory
    of the same size that holds leftovers. *)
Definition dead_grid : list Z := replicate (Z.to_nat (GRID_WIDTH * GRID_HEIGHT)) 0.
Definition junk_grid : list Z := replicate (Z.to_nat (GRID_WIDTH * GRID_HEIGHT)) 7.

(** A state in which [main] may enter its frame loop. *)
Definition main_start : sim :=
  mkSim Alloc0 Alloc1 (mkDevice dead_grid junk_grid) dead_grid 0 O.

(** A sequence of draws of [dis(gen)], alternating 1 and 0. *)
Definition sample_dis (k : nat) : Z := if Nat.even k then 1 else 0.

(** A 10 x 10 grid holding one glider that straddles both edges. *)
Definition glider_sim : sim :=
  mkSim Alloc0 Alloc1
    (mkDevice (place 10 10 glider (8, 9)) (replicate 100 7))
    (replicate 100 0) 0 O.

(** ** Rendering and the event loop of [main] *)

Definition CELL_SIZE : Z := 10.
Definition WINDOW_WIDTH : Z := CInt.mul GRID_WIDTH CELL_SIZE.
Definition WINDOW_HEIGHT : Z := CInt.mul GRID_HEIGHT CELL_SIZE.

Record SDL_Rect : Type := mkRect { rect_x : Z; rect_y : Z; rect_w : Z; rect_h : Z }.

(** The rectangle of line 129 for the cell [(x, y)]. *)
Definition cellRect (x y : Z) : SDL_Rect :=
  mkRect (CInt.mul x CELL_SIZE) (CInt.mul y CELL_SIZE) CELL_SIZE CELL_SIZE.

(** Body of the inner loop of lines 125-133.  The loop state is the list
    of rectangles handed to [SDL_RenderFillRect] since the screen was
    cleared, oldest first. *)
Definition render_cell (h_grid : list Z) (width : Z) (y x : Z)
    (drawn : list SDL_Rect) : option (list SDL_Rect) :=
  v ← index h_grid (CInt.add (CInt.mul y width) x);
  if negb (v =? 0) then Some (drawn ++ [cellRect x y]) else Some drawn.

(** Lines 119-133: clear the screen, then draw the live cells. *)
Definition render (h_grid : list Z) (width height : Z) : option (list SDL_Rect) :=
  for_each (range height)
    (λ y, for_each (range width) (render_cell h_grid width y)) [].

(** The events the loop of lines 101-105 tells apart. *)
Inductive SDL_Event : Set := SDL_QUIT | SDL_OTHER.

(** Lines 101-105: drain the event queue; [quit] is set by [SDL_QUIT] and
    never cleared. *)
Definition poll_events (queue : list SDL_Event) (quit : bool) : bool :=
  foldl (λ q e, match e with SDL_QUIT => true | SDL_OTHER => q end) quit queue.

(** One iteration of the loop with what it presents (line 136). *)
Definition frame_presented (width height : Z) (s : sim)
  : option (sim * list SDL_Rect) :=
  s' ← frame width height s;
  r ← render (h_grid s') width height;
  Some (s', r).

(** The loop of lines 99-139.  [queues] holds, for each iteration, the
    events pending when it polls; [shown] collects the frames presented.
    The result tells whether the loop was left ([true]) or is still
    running when the queues given are used up. *)
Fixpoint main_loop (width height : Z) (queues : list (list SDL_Event))
    (s : sim) (shown : list (list SDL_Rect))
  : option (sim * list (list SDL_Rect) * bool) :=
  match queues with
  | [] => Some (s, shown, false)
  | queue :: rest =>
      let quit := poll_events queue false in
      sr ← frame_presented width height s;
      if quit then Some (sr.1, shown ++ [sr.2], true)
      else main_loop width height rest sr.1 (shown ++ [sr.2])
  end.

(** The rectangles of the live cells of a grid, row by row. *)
Definition live_rects (width height : Z) (g : list Z) : list SDL_Rect :=
  y ← range height; x ← range width;
  if alive width g (x, y) then [cellRect x y] else [].

(** Extents for which the pixel coordinates fit in [int]. *)
Definition window_ok (width height : Z) : Prop :=
  width * CELL_SIZE <= CInt.INT_MAX ∧ height * CELL_SIZE <= CInt.INT_MAX.

(** Two rectangles with no pixel in common. *)
Definition apart (r1 r2 : SDL_Rect) : Prop :=
  rect_x r1 + rect_w r1 <= rect_x r2 ∨ rect_x r2 + rect_w r2 <= rect_x r1
  ∨ rect_y r1 + rect_h r1 <= rect_y r2 ∨ rect_y r2 + rect_h r2 <= rect_y r1.

(** ** Symmetries and still lifes *)

(** The grid [g] moved by [d] on the torus. *)
Definition shift_grid (width height : Z) (d : Z * Z) (g : list Z) : list Z :=
  tabulate width height
    (λ c, cell width g ((c.1 - d.1) mod width, (c.2 - d.2) mod height)).

(** The 2 x 2 block. *)
Definition block : pattern := [(1, 1); (2, 1); (1, 2); (2, 2)].

(** A 4 x 4 grid moved by one cell in both directions, and a state of
    [main] holding a block. *)
Definition shifted_sample_sim : sim :=
  mkSim Alloc0 Alloc1
    (mkDevice (shift_grid 4 4 (1, 1) sample_grid) (replicate 16 7))
    (replicate 16 0) 0 O.

Definition sample_sim : sim :=
  mkSim Alloc0 Alloc1 sample_device sample_grid 0 O.

Definition block_sim : sim :=
  mkSim Alloc0 Alloc1
    (mkDevice (place 6 6 block (4, 5)) (replicate 36 7))
    (replicate 36 0) 0 O.

(** ** Running the model *)

Example blinker_turns :
  current <$> generation 5 5 blinker_sim = Some blinker_lying.
Proof. vm_compute. reflexivity. Qed.

Example blinker_period_two :
  current <$> iterate 2 (generation 5 5) blinker_sim = Some blinker_upright.
Proof. vm_compute. reflexivity. Qed.

Example launch_blocks_4_4 :
  cuda_tiles (2, 2) (2, 2)
  = [[(0, 0); (1, 0); (0, 1); (1, 1)]; [(2, 0); (3, 0); (2, 1); (3, 1)];
     [(0, 2); (1, 2); (0, 3); (1, 3)]; [(2, 2); (3, 2); (2, 3); (3, 3)]].
Proof. vm_compute. reflexivity. Qed.

Example corner_count_sample :
  count_neighbors Alloc0 4 4 0 0 sample_device = Some 1.
Proof. vm_compute. reflexivity. Qed.

(** The loops add the bytes as they are: a cell holding 2 counts twice.
    The count is a number of live cells only on buffers of cells 0 or 1. *)
Example count_adds_raw_bytes :
  count_neighbors Alloc0 3 3 1 1 (mkDevice [2; 0; 0; 0; 0; 0; 0; 0; 0] []) = Some 2.
Proof. vm_compute. reflexivity. Qed.

(** A thread outside the buffers: a negative coordinate passes the guard
    of line 23 and its store is out of bounds. *)
Example negative_coordinate_escapes :
  updateGrid Alloc0 Alloc1 4 4 (-1) 0 sample_device = None.
Proof. vm_compute. reflexivity. Qed.

Example seven_frames :
  (λ s, (frameCount s, swaps s)) <$> iterate 7 (frame 5 5) blinker_sim
  = Some (7, 2%nat).
Proof. vm_compute. reflexivity. Qed.

(** ** Integer arithmetic within range *)

Lemma wrap_in_range (z : Z) : CInt.in_range z → CInt.wrap z = z.
Proof.
  unfold CInt.in_range, CInt.INT_MIN, CInt.INT_MAX, CInt.wrap. intros Hz.
  rewrite Z.mod_small; lia.
Qed.

Lemma add_in_range (a b : Z) : CInt.in_range (a + b) → CInt.add a b = a + b.
Proof. apply wrap_in_range. Qed.

Lemma mul_in_range (a b : Z) : CInt.in_range (a * b) → CInt.mul a b = a * b.
Proof. apply wrap_in_range. Qed.

Lemma cell_index_bounds (width height x y : Z) :
  0 <= x < width → 0 <= y < height → 0 <= y * width + x < width * height.
Proof. intros Hx Hy. nia. Qed.

Lemma cell_index_inj (width x y x' y' : Z) :
  0 <= x < width → 0 <= x' < width →
  y * width + x = y' * width + x' → x = x' ∧ y = y'.
Proof.
  intros Hx Hx' Heq.
  assert (y = y') as -> by (destruct (Z.lt_trichotomy y y') as [?|[?|?]]; nia).
  lia.
Qed.

Lemma to_uchar_of_bool (b : bool) : to_uchar (of_bool b) = of_bool b.
Proof. by destruct b. Qed.

Lemma index_Some (b : list Z) (i : Z) :
  0 <= i < Z.of_nat (length b) → ∃ v, index b i = Some v ∧ v ∈ b.
Proof.
  intros Hi. unfold index. rewrite (proj2 (Z.leb_le 0 i)) by lia.
  destruct (lookup_lt_is_Some_2 b (Z.to_nat i)) as [v Hv]; [lia|].
  exists v. split; [done|]. by eapply list_elem_of_lookup_2.
Qed.

Lemma index_lookup (b : list Z) (i : Z) :
  0 <= i → index b i = b !! Z.to_nat i.
Proof. intros Hi. unfold index. by rewrite (proj2 (Z.leb_le 0 i)). Qed.

Lemma update_Some (b : list Z) (i v : Z) :
  0 <= i < Z.of_nat (length b) →
  update b i v = Some (<[Z.to_nat i := to_uchar v]> b).
Proof.
  intros Hi. unfold update.
  by rewrite (proj2 (Z.leb_le 0 i)), (proj2 (Z.ltb_lt i _)) by lia.
Qed.

Lemma deref_assign_eq (m : device) (p : devptr) (b : list Z) :
  deref (assign m p b) p = b.
Proof. by destruct p. Qed.

Lemma deref_assign_ne (m : device) (p q : devptr) (b : list Z) :
  p ≠ q → deref (assign m q b) p = deref m p.
Proof. by destruct p, q. Qed.

Lemma device_ext (m m' : device) (p q : devptr) :
  p ≠ q → deref m p = deref m' p → deref m q = deref m' q → m = m'.
Proof.
  destruct m, m', p, q; simpl; intros Hpq H1 H2; congruence.
Qed.

(** ** The loops of the kernel *)

Section Kernel.
Variables width height : Z.
Hypothesis Hdims : dims_ok width height.

Lemma wrapped_axis (n x d : Z) :
  0 < n → n + n <= CInt.INT_MAX → 0 <= x < n → -1 <= d <= 1 →
  CInt.rem (CInt.add (CInt.add x d) n) n = (x + d + n) mod n
  ∧ 0 <= (x + d + n) mod n < n.
Proof.
  intros Hn Hmax Hx Hd. unfold CInt.INT_MAX in Hmax.
  rewrite (add_in_range x d), add_in_range
    by (unfold CInt.in_range, CInt.INT_MIN, CInt.INT_MAX; lia).
  unfold CInt.rem. rewrite Z.rem_mod_nonneg by lia.
  split; [done|]. apply Z.mod_pos_bound. lia.
Qed.

Lemma wrap_coord_bounds (c : coord) (d : Z * Z) :
  0 <= (wrap_coord width height c d).1 < width
  ∧ 0 <= (wrap_coord width height c d).2 < height.
Proof.
  destruct Hdims as (Hw & Hh & _). unfold wrap_coord; simpl.
  split; apply Z.mod_pos_bound; lia.
Qed.

Lemma row_major_in_range (x y : Z) :
  0 <= x < width → 0 <= y < height →
  CInt.add (CInt.mul y width) x = y * width + x.
Proof.
  intros Hx Hy. destruct Hdims as (Hw & Hh & Hwh & _).
  unfold CInt.INT_MAX in Hwh.
  rewrite mul_in_range, add_in_range;
    unfold CInt.in_range, CInt.INT_MIN, CInt.INT_MAX; nia.
Qed.

Lemma visit_centre (p : devptr) (x y : Z) (m : device) (count : Z) :
  visit p width height x y m 0 0 count = Some count.
Proof. done. Qed.

Lemma visit_neighbor (p : devptr) (x y : Z) (m : device) (dy dx count : Z) :
  sized width height (deref m p) →
  0 <= x < width → 0 <= y < height →
  -1 <= dx <= 1 → -1 <= dy <= 1 → (dx =? 0) && (dy =? 0) = false →
  visit p width height x y m dy dx count
  = Some (CInt.add count
            (cell width (deref m p) (wrap_coord width height (x, y) (dx, dy)))).
Proof.
  intros Hsz Hx Hy Hdx Hdy Hne. unfold visit. rewrite Hne.
  destruct Hdims as (Hw & Hh & Hwh & Hww & Hhh).
  destruct (wrapped_axis width x dx) as [-> Hnx]; [done..|].
  destruct (wrapped_axis height y dy) as [-> Hny]; [done..|].
  rewrite row_major_in_range by done.
  unfold load, cell, wrap_coord; simpl.
  destruct (index_Some (deref m p)
              ((y + dy + height) mod height * width + (x + dx + width) mod width))
    as (v & -> & _); [|done].
  rewrite Hsz. by apply cell_index_bounds.
Qed.

Lemma count_neighbors_sum (p : devptr) (x y : Z) (m : device) :
  sized width height (deref m p) →
  0 <= x < width → 0 <= y < height →
  count_neighbors p width height x y m
  = Some (neighbor_sum width height (deref m p) (x, y)).
Proof.
  intros Hsz Hx Hy. unfold count_neighbors, offsets. cbn [for_each].
  repeat (first [ rewrite visit_centre
                | rewrite visit_neighbor by (done || lia) ];
          cbn [mbind option_bind]).
  unfold neighbor_sum, torus_neighbors, neighborhood.
  cbn [fmap list_fmap foldl]. reflexivity.
Qed.

Lemma cell_index_lookup (g : list Z) (x y : Z) :
  sized width height g → 0 <= x < width → 0 <= y < height →
  g !! Z.to_nat (y * width + x) = Some (cell width g (x, y)).
Proof.
  intros Hsz Hx Hy. unfold cell; simpl.
  pose proof (cell_index_bounds width height x y Hx Hy) as Hi.
  rewrite index_lookup by lia.
  destruct (lookup_lt_is_Some_2 g (Z.to_nat (y * width + x))) as [v ->];
    [unfold sized in Hsz; lia | done].
Qed.

Lemma rule_branches (count v : Z) :
  (if count =? 3 then Some true
   else if count =? 2 then Some (negb (v =? 0)) else Some false)
  = Some (rule (negb (v =? 0)) count).
Proof. unfold rule. by destruct (count =? 3), (count =? 2). Qed.

Lemma store_cell (q : devptr) (i : Z) (b : bool) (m : device) :
  0 <= i < Z.of_nat (length (deref m q)) →
  store m q i (if b then 1 else 0)
  = Some (assign m q (<[Z.to_nat i := of_bool b]> (deref m q))).
Proof.
  intros Hi. unfold store. rewrite update_Some by done.
  destruct b; reflexivity.
Qed.

(** A thread inside the grid stores the next state of its own cell. *)
Lemma updateGrid_inside (p q : devptr) (x y : Z) (m : device) :
  sized width height (deref m p) → sized width height (deref m q) →
  0 <= x < width → 0 <= y < height →
  updateGrid p q width height x y m
  = Some (assign m q (<[Z.to_nat (y * width + x)
                         := next_cell width height (deref m p) (x, y)]>
                        (deref m q))).
Proof.
  intros Hp Hq Hx Hy. unfold updateGrid, next_cell, alive.
  rewrite (proj2 (Z.ltb_lt x width)), (proj2 (Z.ltb_lt y height)) by lia.
  rewrite row_major_in_range, count_neighbors_sum by done.
  pose proof (cell_index_bounds width height x y Hx Hy) as Hi.
  unfold load at 1.
  rewrite index_lookup, (cell_index_lookup (deref m p)) by (done || lia).
  assert (0 <= y * width + x < Z.of_nat (length (deref m q))) as Hi'
    by (rewrite Hq; lia).
  revert Hi'. generalize (y * width + x) as i.
  generalize (neighbor_sum width height (deref m p) (x, y)) as count.
  generalize (cell width (deref m p) (x, y)) as v.
  intros v count i Hi'. cbn [andb mbind option_bind].
  rewrite <- (store_cell q i _ m Hi'). unfold rule.
  by destruct (count =? 3), (count =? 2).
Qed.

(** A thread beyond the last column or row does nothing. *)
Lemma updateGrid_outside (p q : devptr) (x y : Z) (m : device) :
  ¬ (x < width ∧ y < height) → updateGrid p q width height x y m = Some m.
Proof.
  intros Hout. unfold updateGrid.
  destruct (Z.ltb_spec x width), (Z.ltb_spec y height); cbn [andb]; try done.
  lia.
Qed.
End Kernel.

(** ** Running tiles *)

Lemma for_each_app {A S : Type} (l1 l2 : list A) (body : A → S → option S) (s : S) :
  for_each (l1 ++ l2) body s = s' ← for_each l1 body s; for_each l2 body s'.
Proof.
  revert s. induction l1 as [|a l1 IH]; intros s; [done|].
  cbn [for_each app]. destruct (body a s) as [s1|]; [apply IH | done].
Qed.

Lemma run_tiles_join (p q : devptr) (width height : Z)
    (tiles : list (list coord)) (m : device) :
  run_tiles p q width height tiles m
  = run_tile p q width height (mjoin tiles) m.
Proof.
  revert m. induction tiles as [|t tiles IH]; intros m; [done|].
  unfold run_tiles, run_tile in *. cbn [for_each mjoin list_join].
  rewrite for_each_app.
  destruct (for_each t _ m) as [m1|]; [apply IH | done].
Qed.

Lemma lookup_range (n : Z) (i : nat) :
  Z.of_nat i < n → range n !! i = Some (Z.of_nat i).
Proof. intros Hi. unfold range. by rewrite lookup_seqZ_lt. Qed.

Lemma elem_of_range (n k : Z) : k ∈ range n ↔ 0 <= k < n.
Proof. unfold range. rewrite elem_of_seqZ. lia. Qed.

Lemma elem_of_all_cells (width height x y : Z) :
  (x, y) ∈ all_cells width height ↔ 0 <= x < width ∧ 0 <= y < height.
Proof.
  unfold all_cells. rewrite list_elem_of_bind. split.
  - intros (y' & (x' & Hc & Hx)%list_elem_of_bind & Hy).
    apply list_elem_of_singleton in Hc. injection Hc as -> ->.
    by apply elem_of_range in Hx, Hy.
  - intros [Hx Hy]. exists y. split; [|by apply elem_of_range].
    apply list_elem_of_bind. exists x. split; [|by apply elem_of_range].
    by apply list_elem_of_singleton.
Qed.

Section Launch.
Variables width height : Z.
Hypothesis Hdims : dims_ok width height.
Variables p q : devptr.
Hypothesis Hpq : p ≠ q.

Lemma run_tile_spec (tile : list coord) (m : device) :
  (∀ c, c ∈ tile → 0 <= c.1 ∧ 0 <= c.2) →
  sized width height (deref m p) → sized width height (deref m q) →
  ∃ m', run_tile p q width height tile m = Some m'
    ∧ deref m' p = deref m p
    ∧ sized width height (deref m' q)
    ∧ (∀ x y, 0 <= x < width → 0 <= y < height →
         (x, y) ∈ tile ∨ settled width height (deref m p) (deref m q) x y →
         settled width height (deref m p) (deref m' q) x y)
    ∧ (∀ x y, 0 <= x < width → 0 <= y < height → (x, y) ∉ tile →
         deref m' q !! Z.to_nat (y * width + x)
         = deref m q !! Z.to_nat (y * width + x)).
Proof.
  revert m. induction tile as [|[cx cy] tile IH]; intros m Hpos Hp Hq.
  { exists m. split_and!; try done.
    - intros x y _ _ [Hin|Hs]; [by apply elem_of_nil in Hin | done]. }
  assert (0 <= cx ∧ 0 <= cy) as [Hcx Hcy]
    by (apply (Hpos (cx, cy)), list_elem_of_here).
  assert (∀ c, c ∈ tile → 0 <= c.1 ∧ 0 <= c.2) as Hpos'
    by (intros c Hc; apply Hpos; by apply list_elem_of_further).
  unfold run_tile in *. cbn [for_each fst snd].
  destruct (decide (cx < width ∧ cy < height)) as [[Hxw Hyh]|Hout].
  - (* the thread owns a cell *)
    rewrite (updateGrid_inside width height Hdims) by (done || lia).
    cbn [mbind option_bind].
    set (m1 := assign m q _).
    assert (deref m1 p = deref m p) as Hp1 by by apply deref_assign_ne.
    assert (deref m1 q = <[Z.to_nat (cy * width + cx)
                            := next_cell width height (deref m p) (cx, cy)]>
                           (deref m q)) as Hq1 by apply deref_assign_eq.
    assert (Z.to_nat (cy * width + cx) < length (deref m q))%nat as Hlt.
    { pose proof (cell_index_bounds width height cx cy). unfold sized in Hq. lia. }
    destruct (IH m1 Hpos') as (m' & Hrun & Hp' & Hq' & Hset & Hkeep).
    { by rewrite Hp1. }
    { unfold sized. by rewrite Hq1, length_insert. }
    exists m'. rewrite Hp1 in *. split_and!; [done..| |].
    + intros x y Hx Hy Hor. apply Hset; [done..|].
      destruct (decide ((x, y) = (cx, cy))) as [[= -> ->]|Hne].
      { right. unfold settled. rewrite Hq1. by apply list_lookup_insert_eq. }
      destruct Hor as [[?|Hin]%elem_of_cons|Hs]; [done|by left|right].
      unfold settled. rewrite Hq1, list_lookup_insert_ne; [done|].
      intros Heq. apply Hne.
      pose proof (cell_index_bounds width height cx cy).
      pose proof (cell_index_bounds width height x y).
      destruct (cell_index_inj width cx cy x y); [lia..|congruence].
    + intros x y Hx Hy [Hne Hnin]%not_elem_of_cons.
      rewrite Hkeep, Hq1 by done. apply list_lookup_insert_ne.
      intros Heq. apply Hne.
      pose proof (cell_index_bounds width height cx cy).
      pose proof (cell_index_bounds width height x y).
      destruct (cell_index_inj width cx cy x y); [lia..|congruence].
  - (* the thread lies beyond the grid *)
    rewrite updateGrid_outside by done. cbn [mbind option_bind].
    destruct (IH m Hpos' Hp Hq) as (m' & Hrun & Hp' & Hq' & Hset & Hkeep).
    exists m'. split_and!; [done..| |].
    + intros x y Hx Hy [[[= -> ->]|Hin]%elem_of_cons|Hs]; [lia| |];
        apply Hset; auto.
    + intros x y Hx Hy [_ Hnin]%not_elem_of_cons. by apply Hkeep.
Qed.

Lemma lookup_tabulate (f : coord → Z) (x y : Z) :
  0 <= x < width → 0 <= y < height →
  tabulate width height f !! Z.to_nat (y * width + x) = Some (f (x, y)).
Proof.
  intros Hx Hy. pose proof (cell_index_bounds width height x y Hx Hy) as Hi.
  unfold tabulate. rewrite list_lookup_fmap, lookup_range by lia.
  cbn [fmap option_fmap option_map]. rewrite Z2Nat.id by lia.
  unfold coord_of. do 3 f_equal.
  - rewrite Z.add_comm, Z.mod_add by lia. apply Z.mod_small; lia.
  - rewrite Z.add_comm, Z.div_add by lia. rewrite Z.div_small; lia.
Qed.

Lemma length_tabulate (f : coord → Z) : sized width height (tabulate width height f).
Proof.
  destruct Hdims as (Hw & Hh & _).
  unfold sized, tabulate, range. rewrite length_fmap, length_seqZ. nia.
Qed.

Lemma coord_of_bounds (i : Z) :
  0 <= i < width * height →
  0 <= (coord_of width i).1 < width ∧ 0 <= (coord_of width i).2 < height.
Proof.
  intros Hi. destruct Hdims as (Hw & Hh & _). unfold coord_of. cbn [fst snd].
  split; [apply Z.mod_pos_bound; lia|].
  split; [apply Z.div_pos; lia|]. apply Z.div_lt_upper_bound; lia.
Qed.

(** Two buffers given by functions that agree on the grid are equal. *)
Lemma tabulate_ext (f f' : coord → Z) :
  (∀ x y, 0 <= x < width → 0 <= y < height → f (x, y) = f' (x, y)) →
  tabulate width height f = tabulate width height f'.
Proof.
  intros Hff. unfold tabulate. apply list_fmap_ext. intros k i Hk.
  apply lookup_seqZ in Hk as [-> Hk].
  destruct (coord_of_bounds (0 + Z.of_nat k)) as [Hx Hy]; [lia|].
  destruct (coord_of width (0 + Z.of_nat k)) as [x y]. by apply Hff.
Qed.

Lemma cell_tabulate (f : coord → Z) (x y : Z) :
  0 <= x < width → 0 <= y < height →
  cell width (tabulate width height f) (x, y) = f (x, y).
Proof.
  intros Hx Hy. pose proof (cell_index_bounds width height x y Hx Hy) as Hi.
  unfold cell. cbn [fst snd]. rewrite index_lookup by lia.
  by rewrite lookup_tabulate.
Qed.

Lemma lookup_next_gen (g : list Z) (x y : Z) :
  0 <= x < width → 0 <= y < height →
  next_gen width height g !! Z.to_nat (y * width + x)
  = Some (next_cell width height g (x, y)).
Proof. apply lookup_tabulate. Qed.

Lemma length_next_gen (g : list Z) : sized width height (next_gen width height g).
Proof. apply length_tabulate. Qed.

(** A buffer whose cells are all settled is the next generation. *)
Lemma settled_next_gen (g b : list Z) :
  sized width height b →
  (∀ x y, 0 <= x < width → 0 <= y < height → settled width height g b x y) →
  b = next_gen width height g.
Proof.
  intros Hb Hall. destruct Hdims as (Hw & Hh & _).
  pose proof (length_next_gen g) as Hn. unfold sized in *.
  apply list_eq. intros i.
  destruct (decide (Z.of_nat i < width * height)) as [Hi|Hi].
  - assert (Z.of_nat i = Z.of_nat i / width * width + Z.of_nat i mod width) as Hdm.
    { pose proof (Z.div_mod (Z.of_nat i) width). lia. }
    assert (0 <= Z.of_nat i mod width < width) as Hx by (apply Z.mod_pos_bound; lia).
    assert (0 <= Z.of_nat i / width < height) as Hy.
    { split; [apply Z.div_pos; lia|]. apply Z.div_lt_upper_bound; lia. }
    specialize (Hall _ _ Hx Hy). unfold settled in Hall.
    rewrite <- Hdm, Nat2Z.id in Hall. rewrite Hall.
    rewrite <- (lookup_next_gen g _ _ Hx Hy), <- Hdm, Nat2Z.id. done.
  - rewrite (proj2 (lookup_ge_None b i)), (proj2 (lookup_ge_None _ i)); [done|lia..].
Qed.

(** Running any valid tiling stores the next generation in the next
    buffer and leaves the current buffer as it was. *)
Lemma run_tiles_next_gen (tiles : list (list coord)) (m : device) :
  valid_tiling width height tiles →
  sized width height (deref m p) → sized width height (deref m q) →
  run_tiles p q width height tiles m
  = Some (assign m q (next_gen width height (deref m p))).
Proof.
  intros (Hpos & _ & Hcover) Hp Hq. rewrite run_tiles_join.
  destruct (run_tile_spec (mjoin tiles) m Hpos Hp Hq)
    as (m' & -> & Hp' & Hq' & Hset & _).
  f_equal. apply (device_ext _ _ p q Hpq).
  - by rewrite deref_assign_ne.
  - rewrite deref_assign_eq. apply settled_next_gen; [done|].
    intros x y Hx Hy. apply Hset; auto.
Qed.
End Launch.

(** ** The block decomposition of a CUDA launch *)

Lemma NoDup_bind_key {A B : Type} (key : B → A) (f : A → list B) (l : list A) :
  NoDup l → (∀ a, a ∈ l → NoDup (f a)) →
  (∀ a b, a ∈ l → b ∈ f a → key b = a) → NoDup (l ≫= f).
Proof.
  intros Hl Hf Hkey. apply NoDup_bind; [|done..].
  intros a1 a2 b Ha1 Ha2 Hb1 Hb2.
  by rewrite <- (Hkey a1 b Ha1 Hb1), <- (Hkey a2 b Ha2 Hb2).
Qed.

Lemma join_bind_singleton {A B : Type} (f : A → list B) (l : list A) :
  mjoin (l ≫= λ a, [f a]) = l ≫= f.
Proof. induction l as [|a l IH]; [done|]. csimpl. by rewrite IH. Qed.

Lemma join_bind {A B : Type} (f : A → list (list B)) (l : list A) :
  mjoin (l ≫= f) = l ≫= λ a, mjoin (f a).
Proof. induction l as [|a l IH]; [done|]. csimpl. by rewrite join_app, IH. Qed.

Lemma global_index_small (b bd t : Z) :
  0 <= b → 0 <= bd → 0 <= t → b * bd + t <= CInt.INT_MAX →
  global_index b bd t = b * bd + t.
Proof.
  intros Hb Hbd Ht Hmax. unfold CInt.INT_MAX in Hmax.
  assert (0 <= b * bd) by nia.
  unfold global_index, UInt.add, UInt.mul, UInt.wrap.
  rewrite (Z.mod_small (b * bd)), (Z.mod_small (b * bd + t)) by lia.
  apply wrap_in_range. unfold CInt.in_range, CInt.INT_MIN, CInt.INT_MAX. lia.
Qed.

Lemma block_div_mod (k bd b t : Z) :
  0 < bd → 0 <= t < bd → k = b * bd + t → k / bd = b ∧ k mod bd = t.
Proof.
  intros Hbd Ht ->. split.
  - rewrite Z.add_comm, Z.div_add, Z.div_small by lia. lia.
  - rewrite Z.add_comm, Z.mod_add by lia. apply Z.mod_small; lia.
Qed.

Section Cuda.
Variables gx gy bdx bdy : Z.
Hypothesis Hbdx : 0 < bdx.
Hypothesis Hbdy : 0 < bdy.
Hypothesis Hgx : gx * bdx <= CInt.INT_MAX.
Hypothesis Hgy : gy * bdy <= CInt.INT_MAX.

Lemma global_index_x (bx tx : Z) :
  0 <= bx < gx → 0 <= tx < bdx → global_index bx bdx tx = bx * bdx + tx.
Proof. intros Hb Ht. apply global_index_small; nia. Qed.

Lemma global_index_y (by_ ty : Z) :
  0 <= by_ < gy → 0 <= ty < bdy → global_index by_ bdy ty = by_ * bdy + ty.
Proof. intros Hb Ht. apply global_index_small; nia. Qed.

Lemma elem_of_cuda_block (c : coord) (bx by_ : Z) :
  0 <= bx < gx → 0 <= by_ < gy →
  c ∈ cuda_block (bdx, bdy) (bx, by_) ↔
  ∃ tx ty, 0 <= tx < bdx ∧ 0 <= ty < bdy
           ∧ c = (bx * bdx + tx, by_ * bdy + ty).
Proof.
  intros Hbx Hby. unfold cuda_block. cbn [fst snd].
  rewrite list_elem_of_bind. split.
  - intros (ty & (tx & Hc%list_elem_of_singleton & Htx%elem_of_range)%list_elem_of_bind
               & Hty%elem_of_range).
    exists tx, ty. by rewrite Hc, global_index_x, global_index_y.
  - intros (tx & ty & Htx & Hty & ->). exists ty.
    split; [|by apply elem_of_range]. apply list_elem_of_bind. exists tx.
    split; [|by apply elem_of_range].
    rewrite global_index_x, global_index_y by done. by apply list_elem_of_singleton.
Qed.

Lemma NoDup_cuda_block (bx by_ : Z) :
  0 <= bx < gx → 0 <= by_ < gy → NoDup (cuda_block (bdx, bdy) (bx, by_)).
Proof.
  intros Hbx Hby. unfold cuda_block. cbn [fst snd].
  apply (NoDup_bind_key (λ c : coord, c.2 mod bdy)); [apply NoDup_seqZ| |].
  - intros ty Hty%elem_of_range.
    apply (NoDup_bind_key (λ c : coord, c.1 mod bdx)); [apply NoDup_seqZ| |].
    + intros tx _. apply NoDup_singleton.
    + intros tx c Htx%elem_of_range Hc%list_elem_of_singleton. subst c.
      cbn [fst]. rewrite global_index_x by done.
      by apply (block_div_mod _ bdx bx tx).
  - intros ty c Hty%elem_of_range
      (tx & Hc%list_elem_of_singleton & Htx%elem_of_range)%list_elem_of_bind.
    subst c. cbn [snd]. rewrite global_index_y by done.
    by apply (block_div_mod _ bdy by_ ty).
Qed.

Lemma join_cuda_tiles :
  mjoin (cuda_tiles (gx, gy) (bdx, bdy))
  = by_ ← range gy; bx ← range gx; cuda_block (bdx, bdy) (bx, by_).
Proof.
  unfold cuda_tiles. cbn [fst snd]. rewrite join_bind.
  apply list_bind_ext; [|done]. intros by_. apply join_bind_singleton.
Qed.

Lemma elem_of_cuda_tiles (c : coord) :
  c ∈ mjoin (cuda_tiles (gx, gy) (bdx, bdy)) ↔
  ∃ bx by_ tx ty, 0 <= bx < gx ∧ 0 <= by_ < gy ∧ 0 <= tx < bdx ∧ 0 <= ty < bdy
                  ∧ c = (bx * bdx + tx, by_ * bdy + ty).
Proof.
  rewrite join_cuda_tiles, list_elem_of_bind. split.
  - intros (by_ & (bx & Hc & Hbx%elem_of_range)%list_elem_of_bind
                & Hby%elem_of_range).
    apply elem_of_cuda_block in Hc as (tx & ty & Htx & Hty & ->); [|done..].
    by exists bx, by_, tx, ty.
  - intros (bx & by_ & tx & ty & Hbx & Hby & Htx & Hty & ->). exists by_.
    split; [|by apply elem_of_range]. apply list_elem_of_bind. exists bx.
    split; [|by apply elem_of_range]. apply elem_of_cuda_block; [done..|].
    by exists tx, ty.
Qed.

Lemma NoDup_cuda_tiles : NoDup (mjoin (cuda_tiles (gx, gy) (bdx, bdy))).
Proof.
  rewrite join_cuda_tiles.
  apply (NoDup_bind_key (λ c : coord, c.2 / bdy)); [apply NoDup_seqZ| |].
  - intros by_ Hby%elem_of_range.
    apply (NoDup_bind_key (λ c : coord, c.1 / bdx)); [apply NoDup_seqZ| |].
    + intros bx Hbx%elem_of_range. by apply NoDup_cuda_block.
    + intros bx c Hbx%elem_of_range Hc.
      apply elem_of_cuda_block in Hc as (tx & ty & Htx & Hty & ->); [|done..].
      by apply (block_div_mod _ bdx bx tx).
  - intros by_ c Hby%elem_of_range (bx & Hc & Hbx%elem_of_range)%list_elem_of_bind.
    apply elem_of_cuda_block in Hc as (tx & ty & Htx & Hty & ->); [|done..].
    by apply (block_div_mod _ bdy by_ ty).
Qed.

(** The blocks of a launch that spans the grid are a valid tiling. *)
Lemma cuda_tiles_valid (width height : Z) :
  width <= gx * bdx → height <= gy * bdy →
  valid_tiling width height (cuda_tiles (gx, gy) (bdx, bdy)).
Proof.
  intros Hw Hh. split_and!.
  - intros c (bx & by_ & tx & ty & Hbx & Hby & Htx & Hty & ->)%elem_of_cuda_tiles.
    cbn [fst snd]. nia.
  - apply NoDup_cuda_tiles.
  - intros x y Hx Hy. apply elem_of_cuda_tiles.
    exists (x / bdx), (y / bdy), (x mod bdx), (y mod bdy).
    pose proof (Z.mod_pos_bound x bdx Hbdx). pose proof (Z.mod_pos_bound y bdy Hbdy).
    pose proof (Z.div_mod x bdx). pose proof (Z.div_mod y bdy).
    split_and!; try lia.
    + apply Z.div_pos; lia.
    + apply Z.div_lt_upper_bound; lia.
    + apply Z.div_pos; lia.
    + apply Z.div_lt_upper_bound; lia.
    + f_equal; lia.
Qed.
End Cuda.

(** ** One generation of the host loop *)

Lemma memcpy_whole (dst src : list Z) (n : Z) :
  Z.of_nat (length src) = n → Z.of_nat (length dst) = n →
  memcpy dst src n = Some src.
Proof.
  intros Hs Hd. unfold memcpy.
  rewrite (proj2 (Z.leb_le 0 n)), (proj2 (Z.leb_le n _)), (proj2 (Z.leb_le n _))
    by lia.
  cbn [andb]. by rewrite take_ge, drop_ge, app_nil_r by lia.
Qed.

Lemma grid_extent (n : Z) :
  0 < n → n + n <= CInt.INT_MAX →
  n <= CInt.div (CInt.add (CInt.add n BLOCK_SIZE) (-1)) BLOCK_SIZE * BLOCK_SIZE
       <= CInt.INT_MAX.
Proof.
  unfold CInt.INT_MAX, BLOCK_SIZE. intros Hn Hmax.
  rewrite (add_in_range n 2), add_in_range
    by (unfold CInt.in_range, CInt.INT_MIN, CInt.INT_MAX; lia).
  unfold CInt.div. rewrite Z.quot_div_nonneg by lia.
  pose proof (Z.div_mod (n + 2 + -1) 2). pose proof (Z.mod_pos_bound (n + 2 + -1) 2).
  rewrite wrap_in_range by (unfold CInt.in_range, CInt.INT_MIN, CInt.INT_MAX; lia).
  lia.
Qed.

Lemma size_in_range (width height : Z) :
  dims_ok width height → CInt.mul width height = width * height.
Proof.
  intros (Hw & Hh & Hwh & _). unfold CInt.INT_MAX in Hwh.
  apply mul_in_range. unfold CInt.in_range, CInt.INT_MIN, CInt.INT_MAX. nia.
Qed.

Section Host.
Variables width height : Z.
Hypothesis Hdims : dims_ok width height.

(** The launch of [main] is a valid tiling of the grid. *)
Lemma main_launch_valid :
  valid_tiling width height
    (cuda_tiles
       (CInt.div (CInt.add (CInt.add width BLOCK_SIZE) (-1)) BLOCK_SIZE,
        CInt.div (CInt.add (CInt.add height BLOCK_SIZE) (-1)) BLOCK_SIZE)
       (BLOCK_SIZE, BLOCK_SIZE)).
Proof.
  destruct Hdims as (Hw & Hh & _ & Hww & Hhh).
  pose proof (grid_extent width Hw Hww). pose proof (grid_extent height Hh Hhh).
  apply cuda_tiles_valid; done || lia.
Qed.

Lemma generation_spec (s : sim) :
  wf_sim width height s →
  generation width height s
  = Some (mkSim (d_newGrid s) (d_grid s)
            (assign (dev s) (d_newGrid s) (next_gen width height (current s)))
            (next_gen width height (current s))
            (frameCount s) (S (swaps s))).
Proof.
  intros (Hpq & Hc & Hn & Hh). unfold generation, launch_updateGrid.
  rewrite (run_tiles_next_gen width height Hdims _ _ Hpq _ _ main_launch_valid Hc Hn).
  cbn [mbind option_bind]. rewrite deref_assign_eq, size_in_range by done.
  rewrite memcpy_whole; [done| |done]. apply (length_next_gen width height Hdims).
Qed.

Lemma generation_wf (s s' : sim) :
  wf_sim width height s → generation width height s = Some s' →
  wf_sim width height s'
  ∧ current s' = next_gen width height (current s)
  ∧ next s' = current s
  ∧ frameCount s' = frameCount s ∧ swaps s' = S (swaps s).
Proof.
  intros Hwf. rewrite generation_spec by done. intros [= <-].
  destruct Hwf as (Hpq & Hc & Hn & Hh). unfold wf_sim, current, next in *.
  cbn [d_grid d_newGrid dev h_grid frameCount swaps].
  rewrite deref_assign_eq, deref_assign_ne by done.
  pose proof (length_next_gen width height Hdims (deref (dev s) (d_grid s))).
  split_and!; done.
Qed.

Lemma frame_spec (s : sim) :
  wf_sim width height s →
  ∃ s', frame width height s = Some s' ∧ wf_sim width height s'
    ∧ frameCount s' = CInt.add (frameCount s) 1
    ∧ (if CInt.rem (frameCount s) UPDATE_FREQUENCY =? 0
       then current s' = next_gen width height (current s)
            ∧ next s' = current s ∧ swaps s' = S (swaps s)
       else current s' = current s ∧ next s' = next s ∧ swaps s' = swaps s).
Proof.
  intros Hwf. unfold frame.
  destruct (CInt.rem (frameCount s) UPDATE_FREQUENCY =? 0).
  - rewrite generation_spec by done. cbn [mbind option_bind].
    eexists. split; [done|].
    destruct (generation_wf s _ Hwf (generation_spec s Hwf)) as (Hwf' & ? & ? & ? & ?).
    split_and!; done.
  - cbn [mbind option_bind]. eexists. split; [done|]. by destruct s.
Qed.

(** Generations never fail and keep the invariant. *)
Lemma generations_spec (n : nat) (s : sim) :
  wf_sim width height s →
  ∃ s', iterate n (generation width height) s = Some s'
    ∧ wf_sim width height s'
    ∧ current s' = Nat.iter n (next_gen width height) (current s)
    ∧ frameCount s' = frameCount s ∧ swaps s' = (n + swaps s)%nat.
Proof.
  revert s. induction n as [|n IH]; intros s Hwf.
  { exists s. by split_and!. }
  cbn [iterate]. rewrite generation_spec by done. cbn [mbind option_bind].
  destruct (generation_wf s _ Hwf (generation_spec s Hwf)) as (Hwf' & Hc & _ & Hf & Hs).
  destruct (IH _ Hwf') as (s' & Hrun & Hwf'' & Hc' & Hf' & Hs').
  exists s'. split_and!; [done..| | |].
  - rewrite Hc', Hc. symmetry. apply Nat.iter_succ_r.
  - by rewrite Hf'.
  - rewrite Hs', Hs. lia.
Qed.
End Host.

(** ** Cells of binary and of dead grids *)

Lemma index_elem_of (g : list Z) (i v : Z) : index g i = Some v → v ∈ g.
Proof.
  unfold index. destruct (0 <=? i); [|done].
  intros Hv. by eapply list_elem_of_lookup_2.
Qed.

Lemma cell_binary (width : Z) (g : list Z) (c : coord) :
  binary g → cell width g c = 0 ∨ cell width g c = 1.
Proof.
  intros Hg. unfold cell.
  destruct (index g (c.2 * width + c.1)) as [v|] eqn:Hv; [|by left].
  apply index_elem_of in Hv. by apply (proj1 (Forall_forall _ _) Hg).
Qed.

Lemma cell_all_dead (width : Z) (g : list Z) (c : coord) :
  all_dead g → cell width g c = 0.
Proof.
  intros Hg. unfold cell.
  destruct (index g (c.2 * width + c.1)) as [v|] eqn:Hv; [|done].
  apply index_elem_of in Hv. by apply (proj1 (Forall_forall _ _) Hg).
Qed.

(** On cells that are 0 or 1 the [int] sum of the raw bytes counts the
    live cells. *)
Lemma sum_counts_live (width : Z) (g : list Z) (l : list coord) (acc : Z) :
  binary g → 0 <= acc → acc + Z.of_nat (length l) <= CInt.INT_MAX →
  foldl (λ count n, CInt.add count (cell width g n)) acc l
  = acc + Z.of_nat (length (filter (λ n, alive width g n = true) l)).
Proof.
  intros Hg. revert acc. induction l as [|c l IH]; intros acc Hacc Hmax.
  { cbn. lia. }
  cbn [foldl length] in *. rewrite filter_cons.
  destruct (cell_binary width g c Hg) as [Hc|Hc].
  - assert (alive width g c = false) as Ha by (unfold alive; by rewrite Hc).
    rewrite decide_False by (by rewrite Ha).
    rewrite Hc, add_in_range
      by (unfold CInt.in_range, CInt.INT_MIN, CInt.INT_MAX in *; lia).
    rewrite IH by lia. lia.
  - assert (alive width g c = true) as Ha by (unfold alive; by rewrite Hc).
    rewrite decide_True by done.
    rewrite Hc, add_in_range
      by (unfold CInt.in_range, CInt.INT_MIN, CInt.INT_MAX in *; lia).
    rewrite IH by lia. cbn [length]. lia.
Qed.

Lemma live_neighbors_bounds (width height : Z) (g : list Z) (c : coord) :
  0 <= live_neighbors width height g c <= 8.
Proof.
  unfold live_neighbors.
  pose proof (length_filter (λ n, alive width g n = true)
                (torus_neighbors width height c)) as Hle.
  unfold torus_neighbors in Hle at 2. rewrite length_fmap in Hle.
  cbn [neighborhood length] in Hle. lia.
Qed.

Lemma neighbor_sum_live (width height : Z) (g : list Z) (c : coord) :
  binary g → neighbor_sum width height g c = live_neighbors width height g c.
Proof.
  intros Hg. unfold neighbor_sum, live_neighbors.
  rewrite sum_counts_live; [lia|done|lia|].
  unfold torus_neighbors. rewrite length_fmap. cbn. unfold CInt.INT_MAX. lia.
Qed.

Lemma neighbor_sum_all_dead (width height : Z) (g : list Z) (c : coord) :
  all_dead g → neighbor_sum width height g c = 0.
Proof.
  intros Hg. unfold neighbor_sum, torus_neighbors, neighborhood.
  cbn [fmap list_fmap foldl]. by rewrite !(cell_all_dead width g _ Hg).
Qed.

Lemma next_gen_binary (width height : Z) (g : list Z) :
  binary (next_gen width height g).
Proof.
  unfold binary, next_gen, tabulate. apply Forall_fmap, Forall_forall. intros i _.
  cbn. unfold next_cell. destruct (rule _ _); cbn; auto.
Qed.

Lemma next_gen_all_dead (width height : Z) (g : list Z) :
  all_dead g → all_dead (next_gen width height g).
Proof.
  intros Hg. unfold all_dead, next_gen, tabulate. apply Forall_fmap, Forall_forall.
  intros i _. cbn. unfold next_cell, alive.
  by rewrite neighbor_sum_all_dead, cell_all_dead.
Qed.

Lemma valid_single_tile (width height : Z) :
  valid_tiling width height [all_cells width height].
Proof.
  unfold valid_tiling.
  change (mjoin [all_cells width height]) with (all_cells width height ++ []).
  rewrite app_nil_r. split_and!.
  - intros [x y] Hc%elem_of_all_cells. cbn. lia.
  - unfold all_cells.
    apply (NoDup_bind_key (λ c : coord, c.2)); [apply NoDup_seqZ| |].
    + intros y _. apply (NoDup_bind_key (λ c : coord, c.1)); [apply NoDup_seqZ| |].
      * intros x _. apply NoDup_singleton.
      * by intros x c _ ->%list_elem_of_singleton.
    + by intros y c _ (x & ->%list_elem_of_singleton & _)%list_elem_of_bind.
  - intros x y Hx Hy. by apply elem_of_all_cells.
Qed.

(** ** The update rule (line 38) *)

(** C1.  A thread at a cell of the grid stores 1 (alive) when the count
    its loops computed is 3, or is 2 while the cell is alive now, and
    stores 0 (dead) in every other case.  In particular a count of 3
    gives an alive cell, an alive cell with count 2 stays alive and a dead
    cell with count 2 stays dead. *)
Theorem update_rule (width height : Z) (p q : devptr) (m : device) (x y count : Z) :
  dims_ok width height →
  sized width height (deref m p) → sized width height (deref m q) →
  0 <= x < width → 0 <= y < height →
  count_neighbors p width height x y m = Some count →
  ∃ m', updateGrid p q width height x y m = Some m'
    ∧ deref m' q !! Z.to_nat (y * width + x)
      = Some (if (count =? 3) || ((count =? 2) && alive width (deref m p) (x, y))
              then 1 else 0)
    ∧ (count = 3 → deref m' q !! Z.to_nat (y * width + x) = Some 1)
    ∧ (count = 2 → alive width (deref m p) (x, y) = true →
       deref m' q !! Z.to_nat (y * width + x) = Some 1)
    ∧ (count = 2 → alive width (deref m p) (x, y) = false →
       deref m' q !! Z.to_nat (y * width + x) = Some 0).
Proof.
  intros Hdims Hp Hq Hx Hy Hcount.
  rewrite count_neighbors_sum in Hcount by done. injection Hcount as Hcount.
  rewrite updateGrid_inside by done. eexists. split; [done|].
  rewrite deref_assign_eq, list_lookup_insert_eq.
  2:{ pose proof (cell_index_bounds width height x y Hx Hy). unfold sized in Hq. lia. }
  unfold next_cell, rule. rewrite Hcount.
  generalize (alive width (deref m p) (x, y)) as live. intros live.
  split_and!.
  - by destruct (count =? 3), (count =? 2), live.
  - by intros ->.
  - by intros -> ->.
  - by intros -> ->.
Qed.

(** ** The neighbour count (lines 25-35) *)

(** C2.  For a coordinate inside the grid and a current buffer of cells 0
    or 1, the loops return the number of live cells among the eight
    positions [((x+dx+width) mod width, (y+dy+height) mod height)], a
    number between 0 and 8, and the result depends on nothing but the
    current buffer and the coordinate. *)
Theorem neighbor_count_correct (width height : Z) (p : devptr) (m : device) (x y : Z) :
  dims_ok width height →
  sized width height (deref m p) → binary (deref m p) →
  0 <= x < width → 0 <= y < height →
  count_neighbors p width height x y m
  = Some (live_neighbors width height (deref m p) (x, y))
  ∧ 0 <= live_neighbors width height (deref m p) (x, y) <= 8
  ∧ (∀ m2, deref m2 p = deref m p →
       count_neighbors p width height x y m2 = count_neighbors p width height x y m).
Proof.
  intros Hdims Hp Hbin Hx Hy. split; [|split].
  - rewrite count_neighbors_sum by done. f_equal. by apply neighbor_sum_live.
  - apply live_neighbors_bounds.
  - intros m2 Heq. rewrite !count_neighbors_sum by (done || by rewrite Heq).
    by rewrite Heq.
Qed.

(** ** Bounds of the accesses (lines 23-38) *)

(** C10.  For every thread coordinate the kernel runs without leaving its
    buffers; for a thread that passes the guard, the index it writes and
    the eight indices it reads all lie in [[0, width * height)]. *)
Theorem accesses_in_bounds (width height : Z) (p q : devptr) (m : device) (x y : Z) :
  dims_ok width height →
  sized width height (deref m p) → sized width height (deref m q) →
  0 <= x → 0 <= y →
  is_Some (updateGrid p q width height x y m)
  ∧ (x < width → y < height →
     is_Some (count_neighbors p width height x y m)
     ∧ 0 <= CInt.add (CInt.mul y width) x < width * height
     ∧ ∀ dx dy, dx ∈ offsets → dy ∈ offsets →
         let nx := CInt.rem (CInt.add (CInt.add x dx) width) width in
         let ny := CInt.rem (CInt.add (CInt.add y dy) height) height in
         0 <= CInt.add (CInt.mul ny width) nx < width * height).
Proof.
  intros Hdims Hp Hq Hx Hy. split.
  - destruct (decide (x < width ∧ y < height)) as [[Hxw Hyh]|Hout].
    + rewrite updateGrid_inside by (done || lia). done.
    + rewrite updateGrid_outside by done. done.
  - intros Hxw Hyh. split; [|split].
    + rewrite count_neighbors_sum by (done || lia). done.
    + rewrite (row_major_in_range width height) by (done || lia).
      apply cell_index_bounds; lia.
    + intros dx dy Hdx Hdy.
      assert (-1 <= dx <= 1 ∧ -1 <= dy <= 1) as [Hdx' Hdy'].
      { unfold offsets in *. rewrite !elem_of_cons, !elem_of_nil in Hdx, Hdy. lia. }
      destruct Hdims as (Hw & Hh & Hwh & Hww & Hhh).
      destruct (wrapped_axis width x dx) as [-> Hnx]; [done || lia ..|].
      destruct (wrapped_axis height y dy) as [-> Hny]; [done || lia ..|].
      cbv zeta. rewrite (row_major_in_range width height) by (done || by split_and!).
      by apply cell_index_bounds.
Qed.

(** ** Double buffering (lines 33-38) *)

(** C7.  Whatever threads are run, the launch reads the current buffer
    and writes the next buffer only: the current buffer holds after the
    launch, before the pointers are exchanged, what it held before; and
    after the threads of a valid tiling the next buffer is a function of
    the current buffer alone. *)
Theorem current_read_only (width height : Z) (p q : devptr)
    (tiles : list (list coord)) (m : device) :
  dims_ok width height → p ≠ q →
  sized width height (deref m p) → sized width height (deref m q) →
  (∀ c, c ∈ mjoin tiles → 0 <= c.1 ∧ 0 <= c.2) →
  (∃ m', run_tiles p q width height tiles m = Some m'
         ∧ deref m' p = deref m p)
  ∧ (valid_tiling width height tiles →
     ∃ m', run_tiles p q width height tiles m = Some m'
           ∧ deref m' p = deref m p
           ∧ deref m' q = next_gen width height (deref m p)).
Proof.
  intros Hdims Hpq Hp Hq Hpos. split.
  - rewrite run_tiles_join.
    destruct (run_tile_spec width height Hdims p q Hpq (mjoin tiles) m Hpos Hp Hq)
      as (m' & Hrun & Hp' & _).
    by exists m'.
  - intros Hvalid. rewrite (run_tiles_next_gen width height Hdims p q Hpq) by done.
    eexists. split; [done|].
    by rewrite deref_assign_ne, deref_assign_eq.
Qed.

(** ** Partition invariance (lines 19-24, 91-92) *)

(** C3.  For every current buffer, running the threads tile by tile under
    any valid tiling gives the very device state that running the whole
    grid as one tile gives; the 2 x 2 blocks of the launch of [main] are
    such a tiling. *)
Theorem partition_invariance (width height : Z) (p q : devptr)
    (tiles : list (list coord)) (m : device) :
  dims_ok width height → p ≠ q →
  sized width height (deref m p) → sized width height (deref m q) →
  valid_tiling width height tiles →
  ∃ m', run_tiles p q width height tiles m = Some m'
    ∧ run_tiles p q width height [all_cells width height] m = Some m'
    ∧ launch_updateGrid
        (CInt.div (CInt.add (CInt.add width BLOCK_SIZE) (-1)) BLOCK_SIZE,
         CInt.div (CInt.add (CInt.add height BLOCK_SIZE) (-1)) BLOCK_SIZE)
        (BLOCK_SIZE, BLOCK_SIZE) p q width height m = Some m'.
Proof.
  intros Hdims Hpq Hp Hq Hvalid.
  exists (assign m q (next_gen width height (deref m p))).
  unfold launch_updateGrid. split_and!.
  - by apply run_tiles_next_gen.
  - apply run_tiles_next_gen; auto using valid_single_tile.
  - apply run_tiles_next_gen; auto using main_launch_valid.
Qed.

Lemma update_rule_witness :
  ∃ m', updateGrid Alloc0 Alloc1 4 4 2 2 sample_device = Some m'
        ∧ deref m' Alloc1 !! 10%nat = Some 1.
Proof.
  assert (dims_ok 4 4) as Hdims by (unfold dims_ok, CInt.INT_MAX; lia).
  destruct (update_rule 4 4 Alloc0 Alloc1 sample_device 2 2 3 Hdims
              eq_refl eq_refl ltac:(lia) ltac:(lia) eq_refl)
    as (m' & Hrun & _ & H3 & _).
  exists m'. split; [exact Hrun | exact (H3 eq_refl)].
Defined.

Lemma neighbor_count_correct_witness :
  count_neighbors Alloc0 4 4 2 2 sample_device
  = Some (live_neighbors 4 4 sample_grid (2, 2)).
Proof.
  assert (dims_ok 4 4) as Hdims by (unfold dims_ok, CInt.INT_MAX; lia).
  assert (binary sample_grid) as Hbin
    by (apply (bool_decide_unpack _); vm_compute; exact I).
  exact (proj1 (neighbor_count_correct 4 4 Alloc0 sample_device 2 2 Hdims
                  eq_refl Hbin ltac:(lia) ltac:(lia))).
Defined.

Lemma accesses_in_bounds_witness :
  is_Some (updateGrid Alloc0 Alloc1 4 4 3 0 sample_device).
Proof.
  assert (dims_ok 4 4) as Hdims by (unfold dims_ok, CInt.INT_MAX; lia).
  exact (proj1 (accesses_in_bounds 4 4 Alloc0 Alloc1 sample_device 3 0 Hdims
                  eq_refl eq_refl ltac:(lia) ltac:(lia))).
Defined.

Lemma sample_tiles_valid : valid_tiling 4 4 (cuda_tiles (2, 2) (2, 2)).
Proof. apply cuda_tiles_valid; unfold CInt.INT_MAX; lia. Qed.

Lemma current_read_only_witness :
  ∃ m', run_tiles Alloc0 Alloc1 4 4 (cuda_tiles (2, 2) (2, 2)) sample_device
        = Some m'
        ∧ deref m' Alloc0 = sample_grid.
Proof.
  assert (dims_ok 4 4) as Hdims by (unfold dims_ok, CInt.INT_MAX; lia).
  assert (Alloc0 ≠ Alloc1) as Hpq by discriminate.
  exact (proj1 (current_read_only 4 4 Alloc0 Alloc1 (cuda_tiles (2, 2) (2, 2))
                  sample_device Hdims Hpq eq_refl eq_refl
                  (proj1 sample_tiles_valid))).
Defined.

Lemma partition_invariance_witness :
  ∃ m', run_tiles Alloc0 Alloc1 4 4 (cuda_tiles (2, 2) (2, 2)) sample_device
        = Some m'
        ∧ run_tiles Alloc0 Alloc1 4 4 [all_cells 4 4] sample_device = Some m'
        ∧ launch_updateGrid (2, 2) (2, 2) Alloc0 Alloc1 4 4 sample_device
          = Some m'.
Proof.
  assert (dims_ok 4 4) as Hdims by (unfold dims_ok, CInt.INT_MAX; lia).
  assert (Alloc0 ≠ Alloc1) as Hpq by discriminate.
  exact (partition_invariance 4 4 Alloc0 Alloc1 (cuda_tiles (2, 2) (2, 2))
           sample_device Hdims Hpq eq_refl eq_refl sample_tiles_valid).
Defined.

(** ** Wrap-around at the corners (lines 31-32) *)

Lemma wrap_below (n : Z) : 0 < n → (0 + -1 + n) mod n = n - 1.
Proof. intros Hn. rewrite Z.mod_small by lia. lia. Qed.

Lemma wrap_above (n : Z) : 0 < n → (n - 1 + 1 + n) mod n = 0.
Proof.
  intros Hn. replace (n - 1 + 1 + n) with (0 + 2 * n) by lia.
  rewrite Z.mod_add by lia. apply Z.mod_small. lia.
Qed.

Lemma live_neighbors_pos (width height : Z) (g : list Z) (c o : coord) :
  o ∈ torus_neighbors width height c → alive width g o = true →
  1 <= live_neighbors width height g c.
Proof.
  intros Hin Hal. unfold live_neighbors.
  assert (o ∈ filter (λ n, alive width g n = true) (torus_neighbors width height c))
    as Hf by by apply list_elem_of_filter.
  destruct (filter _ _); [by apply elem_of_nil in Hf | cbn [length]; lia].
Qed.

Lemma elem_of_neighborhood (dx dy : Z) :
  (dx, dy) ∈ neighborhood →
  dx ∈ offsets ∧ dy ∈ offsets ∧ (dx, dy) ≠ (0, 0)
  ∧ -1 <= dx <= 1 ∧ -1 <= dy <= 1 ∧ (dx =? 0) && (dy =? 0) = false.
Proof.
  unfold neighborhood, offsets. rewrite !elem_of_cons, !elem_of_nil.
  intros Hd.
  repeat (destruct Hd as [[= -> ->]|Hd];
          [split_and!; try (done || lia); rewrite !elem_of_cons; auto|]).
  done.
Qed.

Lemma counted_intro (width height : Z) (p : devptr) (m : device) (c : coord)
    (d : Z * Z) :
  dims_ok width height → sized width height (deref m p) →
  0 <= c.1 < width → 0 <= c.2 < height → d ∈ neighborhood →
  counted width height p m c (wrap_coord width height c d).
Proof.
  intros Hdims Hp Hx Hy Hd. destruct c as [x y], d as [dx dy].
  cbn [fst snd] in *.
  destruct (elem_of_neighborhood dx dy Hd) as (Hdx & Hdy & Hne & Hdx' & Hdy' & Hb).
  split; [|split].
  - unfold torus_neighbors. apply list_elem_of_fmap. by exists (dx, dy).
  - exists dx, dy. split_and!; [done..|]. intros n.
    by apply visit_neighbor.
  - intros Hbin. split.
    + rewrite count_neighbors_sum by done. f_equal. by apply neighbor_sum_live.
    + apply live_neighbors_pos.
      unfold torus_neighbors. apply list_elem_of_fmap. by exists (dx, dy).
Qed.

(** C4.  On a [width] x [height] torus the cell [(0, 0)] counts the cell
    [(width-1, height-1)] among its neighbours, and each of the four
    corners counts the diagonally opposite corner. *)
Theorem corner_wraparound (width height : Z) (p : devptr) (m : device) :
  dims_ok width height → sized width height (deref m p) →
  counted width height p m (0, 0) (width - 1, height - 1)
  ∧ counted width height p m (width - 1, height - 1) (0, 0)
  ∧ counted width height p m (width - 1, 0) (0, height - 1)
  ∧ counted width height p m (0, height - 1) (width - 1, 0).
Proof.
  intros Hdims Hp. pose proof Hdims as (Hw & Hh & _).
  assert (∀ c d o, 0 <= c.1 < width → 0 <= c.2 < height → d ∈ neighborhood →
                   wrap_coord width height c d = o →
                   counted width height p m c o) as Hcounted.
  { intros c d o Hx Hy Hd <-. by apply counted_intro. }
  split_and!.
  - apply (Hcounted _ (-1, -1)); cbn [fst snd]; try lia.
    + unfold neighborhood. rewrite !elem_of_cons. auto 10.
    + unfold wrap_coord. cbn [fst snd]. by rewrite !wrap_below.
  - apply (Hcounted _ (1, 1)); cbn [fst snd]; try lia.
    + unfold neighborhood. rewrite !elem_of_cons. auto 10.
    + unfold wrap_coord. cbn [fst snd]. by rewrite !wrap_above.
  - apply (Hcounted _ (1, -1)); cbn [fst snd]; try lia.
    + unfold neighborhood. rewrite !elem_of_cons. auto 10.
    + unfold wrap_coord. cbn [fst snd]. by rewrite wrap_below, wrap_above.
  - apply (Hcounted _ (-1, 1)); cbn [fst snd]; try lia.
    + unfold neighborhood. rewrite !elem_of_cons. auto 10.
    + unfold wrap_coord. cbn [fst snd]. by rewrite wrap_below, wrap_above.
Qed.

Lemma corner_wraparound_witness :
  counted 4 4 Alloc0 sample_device (0, 0) (3, 3)
  ∧ counted 4 4 Alloc0 sample_device (3, 3) (0, 0)
  ∧ counted 4 4 Alloc0 sample_device (3, 0) (0, 3)
  ∧ counted 4 4 Alloc0 sample_device (0, 3) (3, 0).
Proof.
  assert (dims_ok 4 4) as Hdims by (unfold dims_ok, CInt.INT_MAX; lia).
  exact (corner_wraparound 4 4 Alloc0 sample_device Hdims eq_refl).
Defined.

(** ** The dead grid (lines 37-38) *)

Lemma iter_all_dead (width height : Z) (n : nat) (g : list Z) :
  all_dead g → all_dead (Nat.iter n (next_gen width height) g).
Proof.
  intros Hg. induction n as [|n IH]; [done|].
  cbn [Nat.iter nat_rect]. by apply next_gen_all_dead.
Qed.

(** C5.  The all-dead grid is a fixed point: whatever the extents, when
    every cell of the current buffer is dead, any number [n] of
    generation updates succeeds and leaves every cell of the current
    buffer dead. *)
Theorem all_dead_fixed_point (width height : Z) (s : sim) (n : nat) :
  dims_ok width height → wf_sim width height s → all_dead (current s) →
  ∃ s', iterate n (generation width height) s = Some s' ∧ all_dead (current s').
Proof.
  intros Hdims Hwf Hdead.
  destruct (generations_spec width height Hdims n s Hwf) as (s' & Hrun & _ & Hc & _).
  exists s'. split; [done|]. rewrite Hc. by apply iter_all_dead.
Qed.

Lemma dims_ok_main : dims_ok GRID_WIDTH GRID_HEIGHT.
Proof. unfold dims_ok, GRID_WIDTH, GRID_HEIGHT, CInt.INT_MAX. lia. Qed.

Lemma sized_replicate (v : Z) :
  sized GRID_WIDTH GRID_HEIGHT (replicate (Z.to_nat (GRID_WIDTH * GRID_HEIGHT)) v).
Proof. unfold sized. rewrite length_replicate. reflexivity. Qed.

Lemma wf_main_start : wf_sim GRID_WIDTH GRID_HEIGHT main_start.
Proof.
  unfold wf_sim, main_start, current, next. cbn.
  split_and!; [discriminate | apply sized_replicate ..].
Qed.

Lemma all_dead_dead_grid : all_dead dead_grid.
Proof. by apply Forall_replicate. Qed.

Lemma all_dead_fixed_point_witness :
  ∃ s', iterate 3 (generation GRID_WIDTH GRID_HEIGHT) main_start = Some s'
        ∧ all_dead (current s').
Proof.
  exact (all_dead_fixed_point GRID_WIDTH GRID_HEIGHT main_start 3
           dims_ok_main wf_main_start all_dead_dead_grid).
Defined.

(** ** The frame counter (lines 107-117, 138) *)

Lemma updates_before_succ (k : Z) :
  0 <= k →
  updates_before (k + 1)
  = updates_before k + (if Z.rem k UPDATE_FREQUENCY =? 0 then 1 else 0).
Proof.
  intros Hk. unfold updates_before, UPDATE_FREQUENCY.
  rewrite Z.rem_mod_nonneg by lia.
  pose proof (Z.div_mod (k + 1 + (6 - 1)) 6). pose proof (Z.mod_pos_bound (k + 1 + (6 - 1)) 6).
  pose proof (Z.div_mod (k + (6 - 1)) 6). pose proof (Z.mod_pos_bound (k + (6 - 1)) 6).
  pose proof (Z.div_mod k 6). pose proof (Z.mod_pos_bound k 6).
  destruct (Z.eqb_spec (k mod 6) 0); lia.
Qed.

(** [n] frames from a state whose counter is [k]: the counter advances by
    one per frame, the pointers are exchanged in the frames whose counter
    is a multiple of [UPDATE_FREQUENCY]. *)
Lemma frames_spec (width height : Z) (n : nat) (s : sim) :
  dims_ok width height → wf_sim width height s →
  0 <= frameCount s → frameCount s + Z.of_nat n <= CInt.INT_MAX →
  ∃ s', iterate n (frame width height) s = Some s'
    ∧ wf_sim width height s'
    ∧ frameCount s' = frameCount s + Z.of_nat n
    ∧ Z.of_nat (swaps s')
      = Z.of_nat (swaps s)
        + (updates_before (frameCount s + Z.of_nat n) - updates_before (frameCount s)).
Proof.
  intros Hdims. revert s. induction n as [|n IH]; intros s Hwf Hk Hmax.
  { exists s. rewrite Z.add_0_r. split_and!; [done..|lia]. }
  cbn [iterate].
  destruct (frame_spec width height Hdims s Hwf) as (s1 & -> & Hwf1 & Hk1 & Hupd).
  cbn [mbind option_bind].
  rewrite add_in_range in Hk1
    by (unfold CInt.in_range, CInt.INT_MIN, CInt.INT_MAX in *; lia).
  destruct (IH s1 Hwf1) as (s' & Hrun & Hwf' & Hk' & Hsw'); [lia..|].
  exists s'. split_and!; [done..|lia|].
  rewrite Hsw', Hk1, updates_before_succ by lia. unfold CInt.rem in Hupd.
  replace (frameCount s + 1 + Z.of_nat n) with (frameCount s + Z.of_nat (S n)) by lia.
  destruct (Z.rem (frameCount s) UPDATE_FREQUENCY =? 0).
  - destruct Hupd as (_ & _ & ->). lia.
  - destruct Hupd as (_ & _ & ->). lia.
Qed.

(** C8, as the code has it.  The counter of the frame loop counts frames:
    it increases by exactly 1 in every iteration, whether or not the
    buffers were exchanged in it, and the buffers are exchanged in the
    iterations whose counter is a multiple of [UPDATE_FREQUENCY] = 6.
    After [n] iterations from the start the counter is [n] and
    [(n + 5) / 6] exchanges were made. *)
Theorem frame_counter_cadence (n : nat) (s : sim) :
  wf_sim GRID_WIDTH GRID_HEIGHT s → frameCount s = 0 → swaps s = O →
  Z.of_nat n <= CInt.INT_MAX →
  ∃ s', run_frames n s = Some s'
    ∧ frameCount s' = Z.of_nat n
    ∧ Z.of_nat (swaps s') = (Z.of_nat n + 5) / 6.
Proof.
  intros Hwf Hk Hsw Hmax. unfold run_frames.
  destruct (frames_spec GRID_WIDTH GRID_HEIGHT n s dims_ok_main Hwf)
    as (s' & Hrun & _ & Hk' & Hsw'); [lia..|].
  exists s'. split_and!; [done|lia|].
  rewrite Hsw', Hsw, Hk. unfold updates_before, UPDATE_FREQUENCY.
  replace (0 + Z.of_nat n + (6 - 1)) with (Z.of_nat n + 5) by lia.
  change ((0 + (6 - 1)) / 6) with 0. lia.
Qed.

Lemma frame_counter_cadence_witness :
  ∃ s', run_frames 7 main_start = Some s'
        ∧ frameCount s' = 7 ∧ Z.of_nat (swaps s') = 2.
Proof.
  assert (Z.of_nat 7 <= CInt.INT_MAX) as Hmax by (unfold CInt.INT_MAX; lia).
  exact (frame_counter_cadence 7 main_start wf_main_start eq_refl eq_refl Hmax).
Defined.

(** The claim as the specification words it fails on two frames: the
    counter has advanced by 2 while the buffers were exchanged once. *)
Lemma frame_counter_counts_frames :
  ∃ s', run_frames 2 main_start = Some s'
        ∧ frameCount s' - frameCount main_start = 2
        ∧ Z.of_nat (swaps s') - Z.of_nat (swaps main_start) = 1
        ∧ frameCount s' - frameCount main_start
          ≠ Z.of_nat (swaps s') - Z.of_nat (swaps main_start).
Proof.
  assert (0 <= frameCount main_start) as H0 by (unfold main_start, frameCount; lia).
  assert (frameCount main_start + Z.of_nat 2 <= CInt.INT_MAX) as Hmax
    by (unfold main_start, frameCount, CInt.INT_MAX; lia).
  destruct (frames_spec GRID_WIDTH GRID_HEIGHT 2 main_start dims_ok_main
              wf_main_start H0 Hmax) as (s' & Hrun & _ & Hk' & Hsw').
  exists s'. split; [exact Hrun|].
  change (frameCount main_start) with 0 in Hk', Hsw' |- *.
  change (swaps main_start) with O in Hsw' |- *.
  change (updates_before (0 + Z.of_nat 2) - updates_before 0) with 1 in Hsw'.
  lia.
Qed.

(** ** Cells are 0 or 1 (lines 48-53, 38) *)

Lemma init_loop (dis : nat → Z) (len : nat) (a : Z) (g : list Z) :
  0 <= a → a + Z.of_nat len <= Z.of_nat (length g) →
  ∃ g', for_each (seqZ a (Z.of_nat len)) (init_body dis) (g, Z.to_nat a)
        = Some (g', (Z.to_nat a + len)%nat)
    ∧ length g' = length g
    ∧ (∀ i : nat, a <= Z.of_nat i < a + Z.of_nat len →
         g' !! i = Some (to_uchar (dis i)))
    ∧ (∀ i : nat, Z.of_nat i < a → g' !! i = g !! i).
Proof.
  revert a g. induction len as [|len IH]; intros a g Ha Hlen.
  { exists g. rewrite Nat.add_0_r. split_and!; [done..|lia|done]. }
  rewrite seqZ_cons by lia.
  replace (Z.pred (Z.of_nat (S len))) with (Z.of_nat len) by lia.
  cbn [for_each init_body]. rewrite update_Some by lia. cbn [mbind option_bind].
  set (g1 := <[Z.to_nat a := to_uchar (dis (Z.to_nat a))]> g).
  assert (length g1 = length g) as Hg1 by apply length_insert.
  replace (S (Z.to_nat a)) with (Z.to_nat (Z.succ a)) by lia.
  destruct (IH (Z.succ a) g1) as (g' & Hrun & Hlen' & Hset & Hkeep); [lia..|].
  exists g'. split_and!.
  - rewrite Hrun. do 2 f_equal. lia.
  - congruence.
  - intros i Hi. destruct (decide (Z.of_nat i = a)) as [Heq|Hne].
    + rewrite Hkeep by lia. subst a. subst g1.
      rewrite !Nat2Z.id. apply list_lookup_insert_eq. lia.
    + apply Hset. lia.
  - intros i Hi. rewrite Hkeep by lia. apply list_lookup_insert_ne. lia.
Qed.

Lemma initializeGrid_spec (width height : Z) (dis : nat → Z) (grid : list Z) :
  dims_ok width height → sized width height grid →
  ∃ h, initializeGrid dis grid width height = Some h
    ∧ sized width height h
    ∧ ∀ i : nat, Z.of_nat i < width * height → h !! i = Some (to_uchar (dis i)).
Proof.
  intros Hdims Hsz. unfold initializeGrid, range. rewrite size_in_range by done.
  pose proof Hdims as (Hw & Hh & _). unfold sized in *.
  destruct (init_loop dis (Z.to_nat (width * height)) 0 grid)
    as (h & Hrun & Hlen & Hset & _); [lia..|].
  rewrite Z2Nat.id in Hrun by nia. change (Z.to_nat 0) with O in Hrun.
  rewrite Hrun. exists h. split_and!; [done|lia|].
  intros i Hi. apply Hset. lia.
Qed.

Lemma initializeGrid_binary (width height : Z) (dis : nat → Z) (grid h : list Z) :
  dims_ok width height → sized width height grid →
  (∀ k, dis k = 0 ∨ dis k = 1) →
  initializeGrid dis grid width height = Some h → binary h.
Proof.
  intros Hdims Hsz Hdis Hinit.
  destruct (initializeGrid_spec width height dis grid Hdims Hsz)
    as (h' & Hinit' & Hlen & Hset).
  assert (h' = h) as -> by congruence.
  apply Forall_lookup. intros i v Hv.
  pose proof (lookup_lt_Some _ _ _ Hv) as Hi. unfold sized in Hlen.
  rewrite Hset in Hv by lia. injection Hv as <-.
  destruct (Hdis i) as [-> | ->]; auto.
Qed.

Lemma setup_spec (width height : Z) (dis : nat → Z) (host0 junk0 junk1 : list Z) :
  dims_ok width height →
  sized width height host0 → sized width height junk0 → sized width height junk1 →
  ∃ h, initializeGrid dis host0 width height = Some h
    ∧ setup width height dis host0 junk0 junk1
      = Some (mkSim Alloc0 Alloc1 (mkDevice h junk1) h 0 O)
    ∧ wf_sim width height (mkSim Alloc0 Alloc1 (mkDevice h junk1) h 0 O).
Proof.
  intros Hdims H0 Hj0 Hj1.
  destruct (initializeGrid_spec width height dis host0 Hdims H0) as (h & Hinit & Hh & _).
  exists h. split; [done|]. unfold setup. rewrite Hinit. cbn [mbind option_bind].
  rewrite size_in_range, memcpy_whole by done. cbn [mbind option_bind].
  split; [done|]. unfold wf_sim, current, next. cbn. by split_and!.
Qed.

(** Once a generation has been computed both buffers hold cells 0 or 1,
    and every later frame keeps them so. *)
Lemma frames_keep_binary (width height : Z) (n : nat) (s : sim) :
  dims_ok width height → wf_sim width height s →
  binary (current s) → binary (next s) →
  ∃ s', iterate n (frame width height) s = Some s'
    ∧ wf_sim width height s' ∧ binary (current s') ∧ binary (next s').
Proof.
  intros Hdims. revert s. induction n as [|n IH]; intros s Hwf Hc Hn.
  { by exists s. }
  cbn [iterate].
  destruct (frame_spec width height Hdims s Hwf) as (s1 & -> & Hwf1 & _ & Hupd).
  cbn [mbind option_bind]. apply IH; [done|..].
  - destruct (CInt.rem _ _ =? 0).
    + destruct Hupd as (-> & _). apply next_gen_binary.
    + destruct Hupd as (-> & _). done.
  - destruct (CInt.rem _ _ =? 0).
    + destruct Hupd as (_ & -> & _). done.
    + destruct Hupd as (_ & -> & _). done.
Qed.

Lemma frames_binary (width height : Z) (n : nat) (s : sim) :
  dims_ok width height → wf_sim width height s →
  frameCount s = 0 → binary (current s) →
  ∃ s', iterate n (frame width height) s = Some s'
    ∧ wf_sim width height s' ∧ binary (current s')
    ∧ (n ≠ O → binary (next s')).
Proof.
  intros Hdims Hwf Hk Hc. destruct n as [|n].
  { exists s. by split_and!. }
  cbn [iterate].
  destruct (frame_spec width height Hdims s Hwf) as (s1 & -> & Hwf1 & _ & Hupd).
  cbn [mbind option_bind]. rewrite Hk in Hupd.
  change (CInt.rem 0 UPDATE_FREQUENCY =? 0) with true in Hupd.
  destruct Hupd as (Hc1 & Hn1 & _).
  destruct (frames_keep_binary width height n s1 Hdims Hwf1) as (s' & Hrun & Hwf' & Hc' & Hn').
  - rewrite Hc1. apply next_gen_binary.
  - by rewrite Hn1.
  - exists s'. by split_and!.
Qed.

(** C9, as the code has it.  The initialiser gives every cell a value 0 or
    1, and a generation update writes 0 or 1 into every cell of the next
    buffer whatever the buffers held.  Hence every cell of the current
    buffer is 0 or 1 at all times, and every cell of the next buffer is
    0 or 1 from the first generation update on (until then it is the
    uninitialised memory [cudaMalloc] returned); on such a current buffer
    the sum of the raw bytes of the neighbours is the number of live
    neighbours. *)
Theorem cells_binary (width height : Z) (dis : nat → Z)
    (host0 junk0 junk1 : list Z) (n : nat) :
  dims_ok width height → (∀ k, dis k = 0 ∨ dis k = 1) →
  sized width height host0 → sized width height junk0 → sized width height junk1 →
  (∃ h, initializeGrid dis host0 width height = Some h ∧ binary h)
  ∧ (∀ st, wf_sim width height st →
       ∃ st', generation width height st = Some st' ∧ binary (current st'))
  ∧ (∃ s0 s, setup width height dis host0 junk0 junk1 = Some s0
       ∧ iterate n (frame width height) s0 = Some s
       ∧ binary (current s)
       ∧ (n ≠ O → binary (next s))
       ∧ ∀ x y, 0 <= x < width → 0 <= y < height →
           count_neighbors (d_grid s) width height x y (dev s)
           = Some (live_neighbors width height (current s) (x, y))).
Proof.
  intros Hdims Hdis H0 Hj0 Hj1.
  destruct (setup_spec width height dis host0 junk0 junk1 Hdims H0 Hj0 Hj1)
    as (h & Hinit & Hsetup & Hwf).
  pose proof (initializeGrid_binary width height dis host0 h Hdims H0 Hdis Hinit) as Hbin.
  split; [by exists h|]. split.
  - intros st Hst. rewrite generation_spec by done. eexists. split; [done|].
    unfold current. cbn [dev d_grid]. rewrite deref_assign_eq. apply next_gen_binary.
  - destruct (frames_binary width height n _ Hdims Hwf eq_refl Hbin)
      as (s & Hrun & Hwf' & Hc & Hn).
    eexists _, s. split; [exact Hsetup|]. split; [exact Hrun|].
    split; [done|]. split; [done|].
    intros x y Hx Hy. destruct Hwf' as (_ & Hsz & _).
    rewrite count_neighbors_sum by done. f_equal. by apply neighbor_sum_live.
Qed.

Lemma sample_dis_binary (k : nat) : sample_dis k = 0 ∨ sample_dis k = 1.
Proof. unfold sample_dis. destruct (Nat.even k); auto. Qed.

Lemma cells_binary_witness :
  (∃ h, initializeGrid sample_dis (replicate 16 7) 4 4 = Some h ∧ binary h)
  ∧ (∀ st, wf_sim 4 4 st →
       ∃ st', generation 4 4 st = Some st' ∧ binary (current st'))
  ∧ (∃ s0 s, setup 4 4 sample_dis (replicate 16 7) (replicate 16 7) (replicate 16 7)
             = Some s0
       ∧ iterate 1 (frame 4 4) s0 = Some s
       ∧ binary (current s)
       ∧ (1%nat ≠ O → binary (next s))
       ∧ ∀ x y, 0 <= x < 4 → 0 <= y < 4 →
           count_neighbors (d_grid s) 4 4 x y (dev s)
           = Some (live_neighbors 4 4 (current s) (x, y))).
Proof.
  assert (dims_ok 4 4) as Hdims by (unfold dims_ok, CInt.INT_MAX; lia).
  exact (cells_binary 4 4 sample_dis (replicate 16 7) (replicate 16 7)
           (replicate 16 7) 1 Hdims sample_dis_binary eq_refl eq_refl eq_refl).
Defined.

(** The claim as the specification words it fails when [main] enters its
    loop: the next buffer is the memory [cudaMalloc] returned, here bytes
    of value 7. *)
Lemma next_buffer_starts_uninitialised :
  ∃ s0, setup GRID_WIDTH GRID_HEIGHT sample_dis junk_grid junk_grid junk_grid = Some s0
        ∧ binary (current s0) ∧ ¬ binary (next s0).
Proof.
  destruct (setup_spec GRID_WIDTH GRID_HEIGHT sample_dis junk_grid junk_grid junk_grid
              dims_ok_main (sized_replicate 7) (sized_replicate 7) (sized_replicate 7))
    as (h & Hinit & Hsetup & _).
  eexists. split; [exact Hsetup|]. split.
  - unfold current. cbn [dev d_grid deref mem0].
    exact (initializeGrid_binary _ _ _ _ _ dims_ok_main (sized_replicate 7)
             sample_dis_binary Hinit).
  - unfold next. cbn [dev d_newGrid deref mem1]. intros Hbin.
    assert (7 ∈ junk_grid) as Hin.
    { apply elem_of_replicate. split; [reflexivity|].
      unfold GRID_WIDTH, GRID_HEIGHT. lia. }
    destruct (proj1 (Forall_forall _ _) Hbin 7 Hin); lia.
Qed.

(** ** Patterns of the plane on the torus *)

Lemma cong_unique (n a b : Z) :
  0 < n → a mod n = b mod n → - n < a - b < n → a = b.
Proof.
  intros Hn Hmod Hab.
  pose proof (Z.div_mod a n). pose proof (Z.div_mod b n).
  assert (a - b = n * (a / n - b / n)) as Hk by lia.
  revert Hk. generalize (a / n - b / n) as k. intros k Hk.
  destruct (Z.lt_trichotomy k 0) as [?|[->|?]]; [nia|lia|nia].
Qed.

(** Every cell of the torus is the image of a point of the window
    [[-1, n - 1)] of the plane. *)
Lemma torus_rep (n o x : Z) :
  0 < n → 0 <= x < n → ∃ a, -1 <= a < n - 1 ∧ (o + a) mod n = x.
Proof.
  intros Hn Hx. exists ((x - o + 1) mod n - 1).
  pose proof (Z.mod_pos_bound (x - o + 1) n Hn).
  pose proof (Z.div_mod (x - o + 1) n).
  split; [lia|].
  replace (o + ((x - o + 1) mod n - 1)) with (x + - ((x - o + 1) / n) * n) by lia.
  rewrite Z.mod_add by lia. apply Z.mod_small. lia.
Qed.

Lemma wrap_rep (n o a d : Z) :
  0 < n → ((o + a) mod n + d + n) mod n = (o + (a + d)) mod n.
Proof.
  intros Hn. rewrite <- Z.add_assoc, Z.add_mod_idemp_l by lia.
  replace (o + a + (d + n)) with (o + (a + d) + 1 * n) by lia.
  by rewrite Z.mod_add by lia.
Qed.

Lemma member_spec (P : pattern) (a b : Z) : member P a b = true ↔ (a, b) ∈ P.
Proof.
  unfold member. rewrite existsb_exists. split.
  - intros ([a' b'] & Hin%list_elem_of_In & Heq). cbn [fst snd] in Heq.
    apply andb_true_iff in Heq as [Ha%Z.eqb_eq Hb%Z.eqb_eq]. by subst.
  - intros Hin. exists (a, b). split; [by apply list_elem_of_In|].
    cbn [fst snd]. by rewrite !Z.eqb_refl.
Qed.

Lemma within_spec (m : Z) (P : pattern) (c : coord) :
  within m P = true → c ∈ P → 0 <= c.1 < m ∧ 0 <= c.2 < m.
Proof.
  unfold within. rewrite forallb_forall. intros Hall Hc%list_elem_of_In.
  specialize (Hall c Hc). rewrite !andb_true_iff in Hall.
  destruct Hall as [[[?%Z.leb_le ?%Z.ltb_lt] ?%Z.leb_le] ?%Z.ltb_lt]. lia.
Qed.

Lemma member_outside (m : Z) (P : pattern) (u v : Z) :
  within m P = true → ¬ (0 <= u < m ∧ 0 <= v < m) → member P u v = false.
Proof.
  intros Hin Hout. destruct (member P u v) eqn:Hm; [|done].
  apply member_spec in Hm. by apply (within_spec m P (u, v) Hin) in Hm.
Qed.

(** A placed pattern covers the image of a point exactly when the point
    is in the pattern, as long as no other point of the pattern is
    congruent to it. *)
Lemma covers_member (width height : Z) (P : pattern) (o : coord) (u v : Z) :
  0 < width → 0 < height →
  (∀ c, c ∈ P → - width < c.1 - u < width ∧ - height < c.2 - v < height) →
  covers width height P o ((o.1 + u) mod width, (o.2 + v) mod height)
  = member P u v.
Proof.
  intros Hw Hh. induction P as [|c P IH]; intros Hnear; [done|].
  unfold covers, member in *. cbn [existsb fst snd] in *.
  rewrite IH by (intros c' Hc'; apply Hnear; by apply list_elem_of_further).
  destruct (Hnear c (list_elem_of_here _ _)) as [Hc1 Hc2].
  f_equal. f_equal.
  - destruct (Z.eqb_spec c.1 u) as [->|Hne]; [apply Z.eqb_refl|].
    apply Z.eqb_neq. intros Heq. apply Hne.
    apply (cong_unique width) in Heq; lia.
  - destruct (Z.eqb_spec c.2 v) as [->|Hne]; [apply Z.eqb_refl|].
    apply Z.eqb_neq. intros Heq. apply Hne.
    apply (cong_unique height) in Heq; lia.
Qed.

Lemma sum_agree {A : Type} (F : A → Z) (G : A → bool) (l : list A) (acc : Z) :
  Forall (λ d, F d = of_bool (G d)) l →
  0 <= acc → acc + Z.of_nat (length l) <= CInt.INT_MAX →
  foldl (λ count d, CInt.add count (F d)) acc l
  = foldl (λ n d, n + of_bool (G d)) acc l.
Proof.
  intros HF. revert acc. induction HF as [|d l Hd HF IH]; intros acc Hacc Hmax; [done|].
  cbn [foldl length] in *. rewrite Hd.
  assert (0 <= of_bool (G d) <= 1) by (destruct (G d); cbn; lia).
  rewrite add_in_range
    by (unfold CInt.in_range, CInt.INT_MIN, CInt.INT_MAX in *; lia).
  apply IH; lia.
Qed.

Lemma neighborhood_near :
  Forall (λ d : Z * Z, -1 <= d.1 <= 1 ∧ -1 <= d.2 <= 1) neighborhood.
Proof. unfold neighborhood. repeat constructor; cbn [fst snd]; lia. Qed.

Lemma elem_of_widened (m a b : Z) :
  (a, b) ∈ widened m ↔ -1 <= a <= m ∧ -1 <= b <= m.
Proof.
  unfold widened. rewrite list_elem_of_bind. split.
  - intros (b' & (a' & Hc%list_elem_of_singleton & Ha%elem_of_seqZ)%list_elem_of_bind
               & Hb%elem_of_seqZ).
    injection Hc as -> ->. lia.
  - intros [Ha Hb]. exists b. split; [|apply elem_of_seqZ; lia].
    apply list_elem_of_bind. exists a. split; [|apply elem_of_seqZ; lia].
    by apply list_elem_of_singleton.
Qed.

Lemma plane_next_outside (m : Z) (P : pattern) (a b : Z) :
  within m P = true → ¬ (-1 <= a <= m ∧ -1 <= b <= m) → plane_next P a b = false.
Proof.
  intros Hin Hout. unfold plane_next, plane_count, neighborhood.
  cbn [foldl fst snd].
  rewrite !(member_outside m P) by (done || lia). reflexivity.
Qed.

Lemma member_plane_step (m : Z) (P : pattern) (a b : Z) :
  within m P = true → member (plane_step m P) a b = plane_next P a b.
Proof.
  intros Hin. destruct (plane_next P a b) eqn:Hnext.
  - apply member_spec. unfold plane_step. apply list_elem_of_filter.
    split; [done|]. apply elem_of_widened.
    destruct (decide (-1 <= a <= m ∧ -1 <= b <= m)) as [|Hout]; [done|].
    rewrite (plane_next_outside m) in Hnext by done. done.
  - destruct (member (plane_step m P) a b) eqn:Hm; [|done].
    apply member_spec in Hm. unfold plane_step in Hm.
    apply list_elem_of_filter in Hm as [Hm _]. cbn [fst snd] in Hm. congruence.
Qed.

Lemma plane_step_near (m : Z) (P : pattern) (c : coord) :
  c ∈ plane_step m P → -1 <= c.1 <= m ∧ -1 <= c.2 <= m.
Proof.
  unfold plane_step. intros [_ Hc]%list_elem_of_filter.
  destruct c as [a b]. by apply elem_of_widened.
Qed.

Section Torus.
Variables width height m : Z.
Hypothesis Hdims : dims_ok width height.
Hypothesis Hw : m + 2 <= width.
Hypothesis Hh : m + 2 <= height.
Variable P : pattern.
Hypothesis HP : within m P = true.
Variable o : coord.

Lemma cell_place_rep (u v : Z) :
  -2 <= u <= width - 1 → -2 <= v <= height - 1 →
  cell width (place width height P o) ((o.1 + u) mod width, (o.2 + v) mod height)
  = of_bool (member P u v).
Proof.
  intros Hu Hv. destruct Hdims as (Hw0 & Hh0 & _). unfold place.
  rewrite (cell_tabulate width height) by (apply Z.mod_pos_bound; lia).
  f_equal. apply covers_member; [done..|].
  intros c Hc. apply (within_spec m P c HP) in Hc. lia.
Qed.

(** On the image of the point [(a, b)] the kernel computes what the rule
    gives at [(a, b)] on the plane. *)
Lemma next_cell_place (a b : Z) :
  -1 <= a < width - 1 → -1 <= b < height - 1 →
  next_cell width height (place width height P o)
    ((o.1 + a) mod width, (o.2 + b) mod height)
  = of_bool (plane_next P a b).
Proof.
  intros Ha Hb. destruct Hdims as (Hw0 & Hh0 & _).
  unfold next_cell, plane_next, alive. rewrite cell_place_rep by lia.
  f_equal. f_equal.
  - by destruct (member P a b).
  - unfold neighbor_sum, torus_neighbors, plane_count. rewrite foldl_fmap.
    apply sum_agree; [|lia|cbn [neighborhood length]; unfold CInt.INT_MAX; lia].
    eapply Forall_impl; [apply neighborhood_near|].
    intros [dx dy] [Hdx Hdy]. cbn [fst snd] in *.
    unfold wrap_coord. cbn [fst snd]. rewrite !wrap_rep by lia.
    apply cell_place_rep; lia.
Qed.

(** A generation of the torus that holds a pattern well inside it is the
    generation of the pattern on the plane. *)
Lemma next_gen_place :
  next_gen width height (place width height P o)
  = place width height (plane_step m P) o.
Proof.
  destruct Hdims as (Hw0 & Hh0 & _).
  unfold next_gen.
  change (place width height (plane_step m P) o)
    with (tabulate width height
            (λ c, of_bool (covers width height (plane_step m P) o c))).
  apply (tabulate_ext width height Hdims). intros x y Hx Hy.
  destruct (torus_rep width o.1 x) as (a & Ha & <-); [done..|].
  destruct (torus_rep height o.2 y) as (b & Hb & <-); [done..|].
  rewrite next_cell_place by lia. f_equal.
  rewrite covers_member; [by rewrite (member_plane_step m)|lia|lia|].
  intros c Hc%plane_step_near. lia.
Qed.
End Torus.

Lemma covers_translate (width height : Z) (P : pattern) (o : coord) (d : Z * Z)
    (c : coord) :
  covers width height (translate d P) o c
  = covers width height P (o.1 + d.1, o.2 + d.2) c.
Proof.
  unfold covers, translate. induction P as [|a P IH]; [done|].
  cbn [fmap list_fmap existsb fst snd] in *. rewrite IH.
  by rewrite !(Z.add_comm a.1), !(Z.add_comm a.2), !Z.add_assoc.
Qed.

Lemma place_translate (width height : Z) (P : pattern) (o : coord) (d : Z * Z) :
  dims_ok width height →
  place width height (translate d P) o
  = place width height P (o.1 + d.1, o.2 + d.2).
Proof.
  intros Hdims. unfold place. apply (tabulate_ext width height Hdims).
  intros x y _ _. by rewrite covers_translate.
Qed.

(** Four generations of a grid that holds one glider. *)
Lemma glider_four_generations (width height : Z) (o : coord) :
  dims_ok width height → 6 <= width → 6 <= height →
  Nat.iter 4 (next_gen width height) (place width height glider o)
  = place width height glider (o.1 + 1, o.2 + 1).
Proof.
  intros Hdims Hw Hh. cbn [Nat.iter nat_rect].
  rewrite (next_gen_place width height 4 Hdims Hw Hh glider eq_refl o).
  rewrite (next_gen_place width height 4 Hdims Hw Hh (plane_step 4 glider) eq_refl o).
  rewrite (next_gen_place width height 4 Hdims Hw Hh
             (plane_step 4 (plane_step 4 glider)) eq_refl o).
  rewrite (next_gen_place width height 4 Hdims Hw Hh
             (plane_step 4 (plane_step 4 (plane_step 4 glider))) eq_refl o).
  change (plane_step 4 (plane_step 4 (plane_step 4 (plane_step 4 glider))))
    with (translate (1, 1) glider).
  by apply place_translate.
Qed.

(** ** The glider (lines 19-42) *)

(** C6.  On a torus of width and height at least 10 whose live cells are
    exactly the five cells of a glider, four generation updates give the
    grid whose live cells are exactly the same glider moved by (+1, +1)
    modulo the extents of the grid, every other cell being dead. *)
Theorem glider_translation (width height : Z) (o : coord) (s : sim) :
  dims_ok width height → 10 <= width → 10 <= height →
  wf_sim width height s →
  current s = place width height glider o →
  ∃ s', iterate 4 (generation width height) s = Some s'
    ∧ current s' = place width height glider (o.1 + 1, o.2 + 1)
    ∧ ∀ x y, 0 <= x < width → 0 <= y < height →
        cell width (current s') (x, y)
        = if covers width height glider (o.1 + 1, o.2 + 1) (x, y) then 1 else 0.
Proof.
  intros Hdims Hw Hh Hwf Hcur.
  destruct (generations_spec width height Hdims 4 s Hwf) as (s' & Hrun & _ & Hc & _).
  exists s'. split; [done|].
  assert (current s' = place width height glider (o.1 + 1, o.2 + 1)) as Hc'.
  { rewrite Hc, Hcur. apply glider_four_generations; [done|lia..]. }
  split; [done|]. intros x y Hx Hy. rewrite Hc'. unfold place.
  by rewrite (cell_tabulate width height).
Qed.

Lemma glider_translation_witness :
  ∃ s', iterate 4 (generation 10 10) glider_sim = Some s'
    ∧ current s' = place 10 10 glider (9, 10)
    ∧ ∀ x y, 0 <= x < 10 → 0 <= y < 10 →
        cell 10 (current s') (x, y)
        = if covers 10 10 glider (9, 10) (x, y) then 1 else 0.
Proof.
  assert (dims_ok 10 10) as Hdims by (unfold dims_ok, CInt.INT_MAX; lia).
  assert (wf_sim 10 10 glider_sim) as Hwf.
  { unfold wf_sim. split; [discriminate|]. split; [|split]; vm_compute; reflexivity. }
  exact (glider_translation 10 10 (8, 9) glider_sim Hdims ltac:(lia) ltac:(lia)
           Hwf eq_refl).
Defined.

(** ** Further properties of the kernel *)

(** X1.  A thread stores into the cell of its own coordinate and nowhere
    else: after any threads have run, a cell of the next buffer holds its
    next state when some thread had its coordinate and what it held
    before otherwise, and the current buffer is as it was. *)
Theorem threads_write_own_cells (width height : Z) (p q : devptr)
    (tiles : list (list coord)) (m : device) :
  dims_ok width height → p ≠ q →
  sized width height (deref m p) → sized width height (deref m q) →
  (∀ c, c ∈ mjoin tiles → 0 <= c.1 ∧ 0 <= c.2) →
  ∃ m', run_tiles p q width height tiles m = Some m'
    ∧ deref m' p = deref m p
    ∧ length (deref m' q) = length (deref m q)
    ∧ ∀ x y, 0 <= x < width → 0 <= y < height →
        ((x, y) ∈ mjoin tiles →
         deref m' q !! Z.to_nat (y * width + x)
         = Some (next_cell width height (deref m p) (x, y)))
        ∧ ((x, y) ∉ mjoin tiles →
           deref m' q !! Z.to_nat (y * width + x)
           = deref m q !! Z.to_nat (y * width + x)).
Proof.
  intros Hdims Hpq Hp Hq Hpos. rewrite run_tiles_join.
  destruct (run_tile_spec width height Hdims p q Hpq (mjoin tiles) m Hpos Hp Hq)
    as (m' & Hrun & Hp' & Hq' & Hset & Hkeep).
  exists m'. split_and!; [done|done|unfold sized in *; lia|].
  intros x y Hx Hy. split.
  - intros Hin. apply Hset; auto.
  - intros Hnin. by apply Hkeep.
Qed.

Lemma threads_write_own_cells_witness :
  ∃ m', run_tiles Alloc0 Alloc1 4 4 [[(0, 0); (1, 0)]; [(7, 7)]] sample_device
        = Some m'
    ∧ deref m' Alloc0 = sample_grid
    ∧ length (deref m' Alloc1) = 16%nat
    ∧ ∀ x y, 0 <= x < 4 → 0 <= y < 4 →
        ((x, y) ∈ mjoin [[(0, 0); (1, 0)]; [(7, 7)]] →
         deref m' Alloc1 !! Z.to_nat (y * 4 + x)
         = Some (next_cell 4 4 sample_grid (x, y)))
        ∧ ((x, y) ∉ mjoin [[(0, 0); (1, 0)]; [(7, 7)]] →
           deref m' Alloc1 !! Z.to_nat (y * 4 + x)
           = replicate 16 7 !! Z.to_nat (y * 4 + x)).
Proof.
  assert (dims_ok 4 4) as Hdims by (unfold dims_ok, CInt.INT_MAX; lia).
  assert (Alloc0 ≠ Alloc1) as Hpq by discriminate.
  assert (∀ c : coord, c ∈ mjoin [[(0, 0); (1, 0)]; [(7, 7)]] → 0 <= c.1 ∧ 0 <= c.2)
    as Hpos.
  { intros c Hc. cbn in Hc. rewrite !elem_of_cons, elem_of_nil in Hc.
    destruct Hc as [->|[->|[->|[]]]]; cbn; lia. }
  exact (threads_write_own_cells 4 4 Alloc0 Alloc1 [[(0, 0); (1, 0)]; [(7, 7)]]
           sample_device Hdims Hpq eq_refl eq_refl Hpos).
Defined.




(** X3.  Under- and over-population: on a grid of cells 0 or 1, a thread
    whose cell has fewer than 2 or more than 3 live neighbours stores 0,
    whether the cell was alive or not. *)
Theorem lonely_or_crowded_dies (width height : Z) (p q : devptr) (m : device)
    (x y : Z) :
  dims_ok width height →
  sized width height (deref m p) → sized width height (deref m q) →
  binary (deref m p) →
  0 <= x < width → 0 <= y < height →
  live_neighbors width height (deref m p) (x, y) < 2
  ∨ 3 < live_neighbors width height (deref m p) (x, y) →
  ∃ m', updateGrid p q width height x y m = Some m'
    ∧ deref m' q !! Z.to_nat (y * width + x) = Some 0.
Proof.
  intros Hdims Hp Hq Hbin Hx Hy Hcount.
  rewrite updateGrid_inside by done. eexists. split; [done|].
  rewrite deref_assign_eq, list_lookup_insert_eq.
  2:{ pose proof (cell_index_bounds width height x y Hx Hy). unfold sized in Hq. lia. }
  unfold next_cell, rule. rewrite neighbor_sum_live by done.
  revert Hcount. generalize (live_neighbors width height (deref m p) (x, y)) as n.
  generalize (alive width (deref m p) (x, y)) as live. intros live n Hn.
  destruct (Z.eqb_spec n 3); [lia|]. destruct (Z.eqb_spec n 2); [lia|]. done.
Qed.

Lemma lonely_or_crowded_dies_witness :
  ∃ m', updateGrid Alloc0 Alloc1 4 4 3 3 sample_device = Some m'
    ∧ deref m' Alloc1 !! Z.to_nat (3 * 4 + 3) = Some 0.
Proof.
  assert (dims_ok 4 4) as Hdims by (unfold dims_ok, CInt.INT_MAX; lia).
  assert (binary sample_grid) as Hbin
    by (apply (bool_decide_unpack _); vm_compute; exact I).
  assert (live_neighbors 4 4 sample_grid (3, 3) < 2
          ∨ 3 < live_neighbors 4 4 sample_grid (3, 3)) as Hn
    by (left; vm_compute; reflexivity).
  exact (lonely_or_crowded_dies 4 4 Alloc0 Alloc1 sample_device 3 3 Hdims
           eq_refl eq_refl Hbin ltac:(lia) ltac:(lia) Hn).
Defined.

(** ** The neighbourhood on the torus (lines 28-33) *)











(** ** Translations of the torus *)

Lemma shift_wrap (n x e d : Z) :
  0 < n → ((x + e + n) mod n - d) mod n = ((x - d) mod n + e + n) mod n.
Proof.
  intros Hn. rewrite Zminus_mod_idemp_l.
  rewrite <- (Z.add_assoc ((x - d) mod n)), Z.add_mod_idemp_l by lia.
  f_equal. lia.
Qed.

Lemma foldl_agree {A : Type} (F1 F2 : A → Z) (l : list A) (acc : Z) :
  Forall (λ d, F1 d = F2 d) l →
  foldl (λ count d, CInt.add count (F1 d)) acc l
  = foldl (λ count d, CInt.add count (F2 d)) acc l.
Proof.
  intros HF. revert acc. induction HF as [|d l Hd HF IH]; intros acc; [done|].
  cbn [foldl]. rewrite Hd. apply IH.
Qed.

Lemma cell_shift (width height : Z) (d : Z * Z) (g : list Z) (x y : Z) :
  0 <= x < width → 0 <= y < height →
  cell width (shift_grid width height d g) (x, y)
  = cell width g ((x - d.1) mod width, (y - d.2) mod height).
Proof.
  intros Hx Hy. unfold shift_grid. by rewrite (cell_tabulate width height).
Qed.

(** The next generation of a moved grid is the moved next generation. *)
Lemma next_gen_shift (width height : Z) (d : Z * Z) (g : list Z) :
  dims_ok width height →
  next_gen width height (shift_grid width height d g)
  = shift_grid width height d (next_gen width height g).
Proof.
  intros Hdims. pose proof Hdims as (Hw & Hh & _).
  unfold next_gen at 1. unfold shift_grid at 2.
  apply (tabulate_ext width height Hdims). intros x y Hx Hy. cbn [fst snd].
  assert (0 <= (x - d.1) mod width < width) as Hx' by (apply Z.mod_pos_bound; lia).
  assert (0 <= (y - d.2) mod height < height) as Hy' by (apply Z.mod_pos_bound; lia).
  unfold next_gen. rewrite (cell_tabulate width height) by done.
  unfold next_cell, alive. rewrite cell_shift by done. f_equal. f_equal.
  unfold neighbor_sum, torus_neighbors. rewrite !foldl_fmap.
  apply foldl_agree. apply Forall_forall. intros [ex ey] _.
  unfold wrap_coord. cbn [fst snd].
  rewrite cell_shift by (apply Z.mod_pos_bound; lia).
  by rewrite !shift_wrap.
Qed.

(** X6.  The update has no distinguished cell or edge: when the current
    buffer of one run is the current buffer of another moved by [d] on
    the torus, a generation update of each leaves them in the same
    relation. *)
Theorem generation_commutes_with_shift (width height : Z) (d : Z * Z)
    (s1 s2 : sim) :
  dims_ok width height → wf_sim width height s1 → wf_sim width height s2 →
  current s2 = shift_grid width height d (current s1) →
  ∃ s1' s2', generation width height s1 = Some s1'
    ∧ generation width height s2 = Some s2'
    ∧ current s2' = shift_grid width height d (current s1').
Proof.
  intros Hdims Hwf1 Hwf2 Hcur.
  destruct (generation_wf width height Hdims s1 _ Hwf1
              (generation_spec width height Hdims s1 Hwf1)) as (_ & Hc1 & _).
  destruct (generation_wf width height Hdims s2 _ Hwf2
              (generation_spec width height Hdims s2 Hwf2)) as (_ & Hc2 & _).
  eexists _, _. split; [by apply generation_spec|].
  split; [by apply generation_spec|].
  rewrite Hc2, Hc1, Hcur. by apply next_gen_shift.
Qed.

Lemma generation_commutes_with_shift_witness :
  ∃ s1' s2', generation 4 4 sample_sim = Some s1'
    ∧ generation 4 4 shifted_sample_sim = Some s2'
    ∧ current s2' = shift_grid 4 4 (1, 1) (current s1').
Proof.
  assert (dims_ok 4 4) as Hdims by (unfold dims_ok, CInt.INT_MAX; lia).
  assert (wf_sim 4 4 sample_sim) as Hwf1.
  { unfold wf_sim. split; [discriminate|]. split; [|split]; vm_compute; reflexivity. }
  assert (wf_sim 4 4 shifted_sample_sim) as Hwf2.
  { unfold wf_sim. split; [discriminate|]. split; [|split]; vm_compute; reflexivity. }
  exact (generation_commutes_with_shift 4 4 (1, 1) sample_sim shifted_sample_sim
           Hdims Hwf1 Hwf2 eq_refl).
Defined.

(** ** A still life *)

Lemma block_is_still (width height : Z) (o : coord) (n : nat) :
  dims_ok width height → 6 <= width → 6 <= height →
  Nat.iter n (next_gen width height) (place width height block o)
  = place width height block o.
Proof.
  intros Hdims Hw Hh. induction n as [|n IH]; [done|].
  rewrite Nat.iter_succ, IH.
  rewrite (next_gen_place width height 4 Hdims Hw Hh block eq_refl o).
  change (plane_step 4 block) with block. done.
Qed.

(** X7.  The 2 x 2 block is a still life: on a torus of width and height
    at least 6 whose live cells are exactly those of a block, placed
    anywhere, any number of generation updates leaves the grid as it
    is. *)
Theorem block_still_life (width height : Z) (o : coord) (s : sim) (n : nat) :
  dims_ok width height → 6 <= width → 6 <= height →
  wf_sim width height s →
  current s = place width height block o →
  ∃ s', iterate n (generation width height) s = Some s'
    ∧ current s' = place width height block o.
Proof.
  intros Hdims Hw Hh Hwf Hcur.
  destruct (generations_spec width height Hdims n s Hwf) as (s' & Hrun & _ & Hc & _).
  exists s'. split; [done|]. rewrite Hc, Hcur. by apply block_is_still.
Qed.

Lemma block_still_life_witness :
  ∃ s', iterate 5 (generation 6 6) block_sim = Some s'
    ∧ current s' = place 6 6 block (4, 5).
Proof.
  assert (dims_ok 6 6) as Hdims by (unfold dims_ok, CInt.INT_MAX; lia).
  assert (wf_sim 6 6 block_sim) as Hwf.
  { unfold wf_sim. split; [discriminate|]. split; [|split]; vm_compute; reflexivity. }
  exact (block_still_life 6 6 (4, 5) block_sim 5 Hdims ltac:(lia) ltac:(lia)
           Hwf eq_refl).
Defined.

(** ** More on the initialiser (lines 45-55) *)

Lemma init_loop_outside (dis : nat → Z) (len : nat) (a : Z) (g g' : list Z) (k k' : nat) :
  0 <= a →
  for_each (seqZ a (Z.of_nat len)) (init_body dis) (g, k) = Some (g', k') →
  ∀ i : nat, ¬ (a <= Z.of_nat i < a + Z.of_nat len) → g' !! i = g !! i.
Proof.
  revert a g k. induction len as [|len IH]; intros a g k Ha Hrun i Hi.
  { cbn in Hrun. by injection Hrun as <- _. }
  rewrite seqZ_cons in Hrun by lia.
  replace (Z.pred (Z.of_nat (S len))) with (Z.of_nat len) in Hrun by lia.
  cbn [for_each init_body] in Hrun. unfold update in Hrun.
  destruct ((0 <=? a) && (a <? Z.of_nat (length g))); [|done].
  cbn [mbind option_bind] in Hrun.
  assert (0 <= Z.succ a) as Ha' by lia.
  rewrite (IH (Z.succ a) _ _ Ha' Hrun) by lia.
  apply list_lookup_insert_ne. lia.
Qed.

(** X8.  The initialiser overwrites the first [width * height] cells of
    the array with the successive draws, one draw per cell in index
    order, whatever the array held, and leaves the cells after them
    untouched; with a product that is zero or negative it writes
    nothing. *)
Theorem initializeGrid_fills (width height : Z) (dis : nat → Z) (grid : list Z) :
  CInt.in_range (width * height) →
  width * height <= Z.of_nat (length grid) →
  initializeGrid dis grid width height
  = Some (((λ k, to_uchar (dis k)) <$> seq 0 (Z.to_nat (width * height)))
          ++ drop (Z.to_nat (width * height)) grid).
Proof.
  intros Hrange Hlen. unfold initializeGrid, range.
  rewrite mul_in_range by done.
  set (n := Z.to_nat (width * height)).
  assert (seqZ 0 (width * height) = seqZ 0 (Z.of_nat n)) as ->
    by (unfold seqZ; by rewrite Nat2Z.id).
  destruct (init_loop dis n 0 grid) as (h & Hrun & Hlen' & Hset & _); [lia..|].
  change (Z.to_nat 0) with O in Hrun. rewrite Hrun. cbn [fmap option_fmap option_map fst].
  f_equal. apply list_eq. intros i.
  destruct (decide (i < n)%nat) as [Hi|Hi].
  - rewrite lookup_app_l by (rewrite length_fmap, length_seq; lia).
    rewrite list_lookup_fmap, lookup_seq_lt by done. cbn.
    apply Hset. lia.
  - rewrite lookup_app_r by (rewrite length_fmap, length_seq; lia).
    rewrite length_fmap, length_seq, lookup_drop.
    replace (n + (i - n))%nat with i by lia.
    apply (init_loop_outside dis n 0 grid h O (O + n)%nat); [lia|done|lia].
Qed.

Lemma initializeGrid_fills_witness :
  initializeGrid sample_dis [9; 9; 9; 9; 9] 2 2
  = Some (((λ k, to_uchar (sample_dis k)) <$> seq 0 (Z.to_nat (2 * 2)))
          ++ drop (Z.to_nat (2 * 2)) [9; 9; 9; 9; 9]).
Proof.
  assert (CInt.in_range (2 * 2)) as Hrange
    by (unfold CInt.in_range, CInt.INT_MIN, CInt.INT_MAX; lia).
  exact (initializeGrid_fills 2 2 sample_dis [9; 9; 9; 9; 9] Hrange
           ltac:(cbn; lia)).
Defined.

(** X9.  On an array shorter than [width * height] the loop of the
    initialiser runs past the end of the array: its store at the index
    just after the last cell is out of bounds. *)
Theorem initializeGrid_overrun (width height : Z) (dis : nat → Z) (grid : list Z) :
  CInt.in_range (width * height) →
  Z.of_nat (length grid) < width * height →
  initializeGrid dis grid width height = None.
Proof.
  intros Hrange Hlen. unfold initializeGrid, range.
  rewrite mul_in_range by done.
  set (L := length grid) in *.
  replace (width * height) with (Z.of_nat L + (width * height - Z.of_nat L)) by lia.
  rewrite seqZ_app, for_each_app by lia.
  destruct (init_loop dis L 0 grid) as (h & Hrun & Hlen' & _); [lia..|].
  change (Z.to_nat 0) with O in Hrun. rewrite Hrun. cbn [mbind option_bind].
  rewrite seqZ_cons by lia. cbn [for_each init_body]. unfold update.
  rewrite (proj2 (Z.ltb_ge _ _)) by lia.
  rewrite andb_false_r. done.
Qed.

Lemma initializeGrid_overrun_witness :
  initializeGrid sample_dis [9; 9; 9] 2 2 = None.
Proof.
  assert (CInt.in_range (2 * 2)) as Hrange
    by (unfold CInt.in_range, CInt.INT_MIN, CInt.INT_MAX; lia).
  exact (initializeGrid_overrun 2 2 sample_dis [9; 9; 9] Hrange ltac:(cbn; lia)).
Defined.

(** ** Buffers, pointers and generations across frames (lines 107-117) *)

(** One frame in full: in a frame whose counter is a multiple of
    [UPDATE_FREQUENCY] the pointers are exchanged and both the new current
    buffer and the host array are the next generation; other frames
    change the counter only. *)
Lemma frame_state (width height : Z) (s : sim) :
  dims_ok width height → wf_sim width height s →
  ∃ s', frame width height s = Some s' ∧ wf_sim width height s'
    ∧ (if CInt.rem (frameCount s) UPDATE_FREQUENCY =? 0
       then d_grid s' = d_newGrid s ∧ d_newGrid s' = d_grid s
            ∧ current s' = next_gen width height (current s)
            ∧ h_grid s' = next_gen width height (current s)
            ∧ swaps s' = S (swaps s)
       else d_grid s' = d_grid s ∧ d_newGrid s' = d_newGrid s
            ∧ current s' = current s ∧ h_grid s' = h_grid s
            ∧ swaps s' = swaps s).
Proof.
  intros Hdims Hwf.
  destruct (frame_spec width height Hdims s Hwf) as (s' & Hrun & Hwf' & _ & Hupd).
  exists s'. split; [done|]. split; [done|].
  unfold frame in Hrun.
  destruct (CInt.rem (frameCount s) UPDATE_FREQUENCY =? 0).
  - rewrite generation_spec in Hrun by done. cbn [mbind option_bind] in Hrun.
    injection Hrun as <-. cbn [d_grid d_newGrid h_grid swaps].
    destruct Hupd as (Hc & _ & _). by split_and!.
  - cbn [mbind option_bind] in Hrun. injection Hrun as <-.
    cbn [d_grid d_newGrid h_grid swaps]. destruct Hupd as (Hc & _ & _).
    by split_and!.
Qed.

(** [n] frames make some number [k] of generations. *)
Lemma frames_generations (width height : Z) (n : nat) (s : sim) :
  dims_ok width height → wf_sim width height s →
  ∃ s' k, iterate n (frame width height) s = Some s'
    ∧ wf_sim width height s'
    ∧ swaps s' = (k + swaps s)%nat
    ∧ current s' = Nat.iter k (next_gen width height) (current s)
    ∧ d_grid s' = (if Nat.even k then d_grid s else d_newGrid s)
    ∧ d_newGrid s' = (if Nat.even k then d_newGrid s else d_grid s)
    ∧ (h_grid s = current s → h_grid s' = current s').
Proof.
  intros Hdims. revert s. induction n as [|n IH]; intros s Hwf.
  { exists s, O. by split_and!. }
  cbn [iterate].
  destruct (frame_state width height s Hdims Hwf) as (s1 & -> & Hwf1 & Hupd).
  cbn [mbind option_bind].
  destruct (IH s1 Hwf1) as (s' & k & Hrun & Hwf' & Hsw & Hc & Hp & Hq & Hh).
  destruct (CInt.rem (frameCount s) UPDATE_FREQUENCY =? 0).
  - destruct Hupd as (Hp1 & Hq1 & Hc1 & Hh1 & Hsw1).
    exists s', (S k). split_and!; [done|done|lia| | | |].
    + rewrite Hc, Hc1. symmetry. apply Nat.iter_succ_r.
    + rewrite Hp, Hp1, Hq1, Nat.even_succ, <- Nat.negb_even.
      by destruct (Nat.even k).
    + rewrite Hq, Hp1, Hq1, Nat.even_succ, <- Nat.negb_even.
      by destruct (Nat.even k).
    + intros _. apply Hh. congruence.
  - destruct Hupd as (Hp1 & Hq1 & Hc1 & Hh1 & Hsw1).
    exists s', k. split_and!; [done|done|lia|congruence| | |].
    + by rewrite Hp, Hp1, Hq1.
    + by rewrite Hq, Hp1, Hq1.
    + intros Heq. apply Hh. congruence.
Qed.

(** X10.  What is drawn is the current generation: from the start of
    [main], after any number of frames the host array [h_grid] read by
    the drawing loop equals the current device buffer. *)
Theorem host_mirrors_device (width height : Z) (dis : nat → Z)
    (host0 junk0 junk1 : list Z) (n : nat) :
  dims_ok width height →
  sized width height host0 → sized width height junk0 → sized width height junk1 →
  ∃ s0 s, setup width height dis host0 junk0 junk1 = Some s0
    ∧ iterate n (frame width height) s0 = Some s
    ∧ h_grid s = current s.
Proof.
  intros Hdims H0 Hj0 Hj1.
  destruct (setup_spec width height dis host0 junk0 junk1 Hdims H0 Hj0 Hj1)
    as (h & _ & Hsetup & Hwf).
  destruct (frames_generations width height n _ Hdims Hwf)
    as (s & k & Hrun & _ & _ & _ & _ & _ & Hh).
  eexists _, s. split; [exact Hsetup|]. split; [exact Hrun|]. by apply Hh.
Qed.

Lemma host_mirrors_device_witness :
  ∃ s0 s, setup 4 4 sample_dis (replicate 16 7) (replicate 16 7) (replicate 16 7)
          = Some s0
    ∧ iterate 8 (frame 4 4) s0 = Some s
    ∧ h_grid s = current s.
Proof.
  assert (dims_ok 4 4) as Hdims by (unfold dims_ok, CInt.INT_MAX; lia).
  exact (host_mirrors_device 4 4 sample_dis (replicate 16 7) (replicate 16 7)
           (replicate 16 7) 8 Hdims eq_refl eq_refl eq_refl).
Defined.

(** After [n] frames from a counter of 0 the current buffer is generation
    [(n + 5) / 6]. *)
Lemma frames_cadence (width height : Z) (n : nat) (s : sim) :
  dims_ok width height → wf_sim width height s → frameCount s = 0 →
  Z.of_nat n <= CInt.INT_MAX →
  ∃ s', iterate n (frame width height) s = Some s'
    ∧ current s'
      = Nat.iter (Z.to_nat ((Z.of_nat n + 5) / 6)) (next_gen width height) (current s)
    ∧ d_grid s'
      = (if Nat.even (Z.to_nat ((Z.of_nat n + 5) / 6)) then d_grid s else d_newGrid s)
    ∧ d_newGrid s'
      = (if Nat.even (Z.to_nat ((Z.of_nat n + 5) / 6)) then d_newGrid s else d_grid s)
    ∧ (h_grid s = current s → h_grid s' = current s').
Proof.
  intros Hdims Hwf Hk Hmax.
  destruct (frames_generations width height n s Hdims Hwf)
    as (s' & k & Hrun & _ & Hsw & Hc & Hp & Hq & Hh).
  destruct (frames_spec width height n s Hdims Hwf) as (s'' & Hrun' & _ & _ & Hsw');
    [lia..|].
  assert (s'' = s') as -> by congruence.
  assert (k = Z.to_nat ((Z.of_nat n + 5) / 6)) as <-.
  { rewrite Hk in Hsw'. unfold updates_before, UPDATE_FREQUENCY in Hsw'.
    replace (0 + Z.of_nat n + (6 - 1)) with (Z.of_nat n + 5) in Hsw' by lia.
    change ((0 + (6 - 1)) / 6) with 0 in Hsw'. lia. }
  by exists s'.
Qed.

(** X11.  The grid advances one generation every [UPDATE_FREQUENCY] = 6
    frames, the first time in frame 0: after [n] frames from a counter of
    0 the current buffer is generation [(n + 5) / 6] of the buffer the
    loop started with, and the two pointers have changed places exactly
    when that number is odd. *)
Theorem generation_every_six_frames (width height : Z) (n : nat) (s : sim) :
  dims_ok width height → wf_sim width height s → frameCount s = 0 →
  Z.of_nat n <= CInt.INT_MAX →
  ∃ s', iterate n (frame width height) s = Some s'
    ∧ current s'
      = Nat.iter (Z.to_nat ((Z.of_nat n + 5) / 6)) (next_gen width height) (current s)
    ∧ d_grid s'
      = (if Nat.even (Z.to_nat ((Z.of_nat n + 5) / 6)) then d_grid s else d_newGrid s)
    ∧ d_newGrid s'
      = (if Nat.even (Z.to_nat ((Z.of_nat n + 5) / 6)) then d_newGrid s else d_grid s).
Proof.
  intros Hdims Hwf Hk Hmax.
  destruct (frames_cadence width height n s Hdims Hwf Hk Hmax)
    as (s' & Hrun & Hc & Hp & Hq & _).
  by exists s'.
Qed.

Lemma generation_every_six_frames_witness :
  ∃ s', iterate 7 (frame 4 4) sample_sim = Some s'
    ∧ current s'
      = Nat.iter (Z.to_nat ((Z.of_nat 7 + 5) / 6)) (next_gen 4 4) (current sample_sim)
    ∧ d_grid s'
      = (if Nat.even (Z.to_nat ((Z.of_nat 7 + 5) / 6))
         then d_grid sample_sim else d_newGrid sample_sim)
    ∧ d_newGrid s'
      = (if Nat.even (Z.to_nat ((Z.of_nat 7 + 5) / 6))
         then d_newGrid sample_sim else d_grid sample_sim).
Proof.
  assert (dims_ok 4 4) as Hdims by (unfold dims_ok, CInt.INT_MAX; lia).
  assert (wf_sim 4 4 sample_sim) as Hwf.
  { unfold wf_sim. split; [discriminate|]. split; [|split]; vm_compute; reflexivity. }
  assert (Z.of_nat 7 <= CInt.INT_MAX) as Hmax by (unfold CInt.INT_MAX; lia).
  exact (generation_every_six_frames 4 4 7 sample_sim Hdims Hwf eq_refl Hmax).
Defined.

(** ** Drawing the grid (lines 119-136) *)

Section Render.
Variables width height : Z.
Hypothesis Hdims : dims_ok width height.
Variable g : list Z.
Hypothesis Hg : sized width height g.

Lemma render_cell_spec (x y : Z) (drawn : list SDL_Rect) :
  0 <= x < width → 0 <= y < height →
  render_cell g width y x drawn
  = Some (drawn ++ if alive width g (x, y) then [cellRect x y] else []).
Proof.
  intros Hx Hy. unfold render_cell, alive.
  rewrite (row_major_in_range width height) by done.
  pose proof (cell_index_bounds width height x y Hx Hy) as Hi.
  rewrite index_lookup, (cell_index_lookup width height) by (done || lia).
  cbn [mbind option_bind].
  destruct (negb (cell width g (x, y) =? 0)); [done|]. by rewrite app_nil_r.
Qed.

Lemma render_row_spec (y : Z) (l : list Z) (drawn : list SDL_Rect) :
  0 <= y < height → (∀ x, x ∈ l → 0 <= x < width) →
  for_each l (render_cell g width y) drawn
  = Some (drawn ++ (x ← l; if alive width g (x, y) then [cellRect x y] else [])).
Proof.
  intros Hy. revert drawn. induction l as [|x l IH]; intros drawn Hl.
  { cbn. by rewrite app_nil_r. }
  cbn [for_each]. rewrite render_cell_spec by (done || apply Hl, list_elem_of_here).
  cbn [mbind option_bind]. rewrite IH
    by (intros x' Hx'; by apply Hl, list_elem_of_further).
  by rewrite bind_cons, app_assoc.
Qed.

Lemma render_rows_spec (l : list Z) (drawn : list SDL_Rect) :
  (∀ y, y ∈ l → 0 <= y < height) →
  for_each l (λ y, for_each (range width) (render_cell g width y)) drawn
  = Some (drawn ++ (y ← l; x ← range width;
                    if alive width g (x, y) then [cellRect x y] else [])).
Proof.
  revert drawn. induction l as [|y l IH]; intros drawn Hl.
  { cbn. by rewrite app_nil_r. }
  cbn [for_each].
  rewrite render_row_spec
    by (try apply Hl, list_elem_of_here; intros x Hx; by apply elem_of_range).
  cbn [mbind option_bind]. rewrite IH
    by (intros y' Hy'; by apply Hl, list_elem_of_further).
  by rewrite bind_cons, app_assoc.
Qed.

Lemma render_spec : render g width height = Some (live_rects width height g).
Proof.
  unfold render, live_rects. rewrite render_rows_spec; [done|].
  intros y Hy. by apply elem_of_range.
Qed.

Lemma elem_of_live_rects (r : SDL_Rect) :
  r ∈ live_rects width height g ↔
  ∃ x y, 0 <= x < width ∧ 0 <= y < height
         ∧ alive width g (x, y) = true ∧ r = cellRect x y.
Proof.
  unfold live_rects. rewrite list_elem_of_bind. split.
  - intros (y & (x & Hr & Hx%elem_of_range)%list_elem_of_bind & Hy%elem_of_range).
    exists x, y. destruct (alive width g (x, y)).
    + apply list_elem_of_singleton in Hr. done.
    + by apply elem_of_nil in Hr.
  - intros (x & y & Hx & Hy & Hal & ->). exists y.
    split; [|by apply elem_of_range]. apply list_elem_of_bind. exists x.
    split; [|by apply elem_of_range]. rewrite Hal. by apply list_elem_of_singleton.
Qed.

Hypothesis Hwin : window_ok width height.

Lemma cellRect_fields (x y : Z) :
  0 <= x < width → 0 <= y < height →
  cellRect x y = mkRect (x * CELL_SIZE) (y * CELL_SIZE) CELL_SIZE CELL_SIZE.
Proof.
  intros Hx Hy. destruct Hwin as [Hw Hh]. unfold cellRect.
  unfold CELL_SIZE, CInt.INT_MAX in *.
  rewrite !mul_in_range
    by (unfold CInt.in_range, CInt.INT_MIN, CInt.INT_MAX; lia).
  done.
Qed.

Lemma NoDup_live_rects : NoDup (live_rects width height g).
Proof.
  unfold live_rects.
  apply (NoDup_bind_key (λ r, rect_y r / CELL_SIZE)); [apply NoDup_seqZ| |].
  - intros y Hy%elem_of_range.
    apply (NoDup_bind_key (λ r, rect_x r / CELL_SIZE)); [apply NoDup_seqZ| |].
    + intros x _. destruct (alive width g (x, y)); [apply NoDup_singleton|apply NoDup_nil_2].
    + intros x r Hx%elem_of_range Hr.
      destruct (alive width g (x, y)); [|by apply elem_of_nil in Hr].
      apply list_elem_of_singleton in Hr. subst r.
      rewrite cellRect_fields by done. cbn [rect_x]. unfold CELL_SIZE.
      by rewrite Z.div_mul.
  - intros y r Hy%elem_of_range (x & Hr & Hx%elem_of_range)%list_elem_of_bind.
    destruct (alive width g (x, y)); [|by apply elem_of_nil in Hr].
    apply list_elem_of_singleton in Hr. subst r.
    rewrite cellRect_fields by done. cbn [rect_y]. unfold CELL_SIZE.
    by rewrite Z.div_mul.
Qed.
End Render.

(** X12.  The drawing loop fills one square for each live cell and none
    for a dead cell: the square of the cell [(x, y)] is among those drawn
    exactly when the cell is alive, no square is drawn twice, and nothing
    is drawn for a grid with no live cell. *)
Theorem render_draws_live_cells (width height : Z) (g : list Z) :
  dims_ok width height → window_ok width height → sized width height g →
  ∃ rs, render g width height = Some rs
    ∧ NoDup rs
    ∧ (∀ r, r ∈ rs → ∃ x y, 0 <= x < width ∧ 0 <= y < height
                             ∧ r = mkRect (x * CELL_SIZE) (y * CELL_SIZE)
                                          CELL_SIZE CELL_SIZE)
    ∧ (∀ x y, 0 <= x < width → 0 <= y < height →
         (mkRect (x * CELL_SIZE) (y * CELL_SIZE) CELL_SIZE CELL_SIZE ∈ rs
          ↔ alive width g (x, y) = true))
    ∧ (all_dead g → rs = []).
Proof.
  intros Hdims Hwin Hg. exists (live_rects width height g).
  split; [by apply render_spec|]. split; [by apply NoDup_live_rects|].
  split; [|split].
  - intros r (x & y & Hx & Hy & _ & ->)%elem_of_live_rects.
    exists x, y. split_and!; [lia..|]. by apply (cellRect_fields width height).
  - intros x y Hx Hy. rewrite <- (cellRect_fields width height Hwin x y Hx Hy).
    rewrite elem_of_live_rects. split.
    + intros (x' & y' & Hx' & Hy' & Hal & Heq).
      rewrite !(cellRect_fields width height Hwin) in Heq by done.
      injection Heq as Hxx Hyy. unfold CELL_SIZE in *.
      by replace x with x' by lia; replace y with y' by lia.
    + intros Hal. by exists x, y.
  - intros Hdead. destruct (live_rects width height g) as [|r rs] eqn:Hrs; [done|].
    assert (r ∈ live_rects width height g) as Hr by (rewrite Hrs; apply list_elem_of_here).
    apply elem_of_live_rects in Hr as (x & y & _ & _ & Hal & _).
    unfold alive in Hal. by rewrite cell_all_dead in Hal.
Qed.

Lemma render_draws_live_cells_witness :
  ∃ rs, render sample_grid 4 4 = Some rs
    ∧ NoDup rs
    ∧ (∀ r, r ∈ rs → ∃ x y, 0 <= x < 4 ∧ 0 <= y < 4
                             ∧ r = mkRect (x * CELL_SIZE) (y * CELL_SIZE)
                                          CELL_SIZE CELL_SIZE)
    ∧ (∀ x y, 0 <= x < 4 → 0 <= y < 4 →
         (mkRect (x * CELL_SIZE) (y * CELL_SIZE) CELL_SIZE CELL_SIZE ∈ rs
          ↔ alive 4 sample_grid (x, y) = true))
    ∧ (all_dead sample_grid → rs = []).
Proof.
  assert (dims_ok 4 4) as Hdims by (unfold dims_ok, CInt.INT_MAX; lia).
  assert (window_ok 4 4) as Hwin by (unfold window_ok, CELL_SIZE, CInt.INT_MAX; lia).
  exact (render_draws_live_cells 4 4 sample_grid Hdims Hwin eq_refl).
Defined.

(** X13.  Every square drawn lies within the window of
    [width * CELL_SIZE] by [height * CELL_SIZE] pixels, and two different
    squares drawn in one frame have no pixel in common. *)
Theorem render_within_window (width height : Z) (grid : list Z)
    (drawn : list SDL_Rect) :
  dims_ok width height → window_ok width height → sized width height grid →
  render grid width height = Some drawn →
  (∀ r, r ∈ drawn →
     0 <= rect_x r ∧ rect_x r + rect_w r <= width * CELL_SIZE
     ∧ 0 <= rect_y r ∧ rect_y r + rect_h r <= height * CELL_SIZE)
  ∧ (∀ r1 r2, r1 ∈ drawn → r2 ∈ drawn → r1 ≠ r2 → apart r1 r2).
Proof.
  intros Hdims Hwin Hg. rewrite render_spec by done. intros [= <-].
  assert (∀ r, r ∈ live_rects width height grid →
            ∃ x y, 0 <= x < width ∧ 0 <= y < height
                   ∧ r = mkRect (x * CELL_SIZE) (y * CELL_SIZE) CELL_SIZE CELL_SIZE)
    as Hshape.
  { intros r (x & y & Hx & Hy & _ & ->)%elem_of_live_rects.
    exists x, y. split_and!; [lia..|]. by apply (cellRect_fields width height). }
  split.
  - intros r (x & y & Hx & Hy & ->)%Hshape. cbn [rect_x rect_y rect_w rect_h].
    unfold CELL_SIZE. lia.
  - intros r1 r2 (x1 & y1 & Hx1 & Hy1 & ->)%Hshape (x2 & y2 & Hx2 & Hy2 & ->)%Hshape Hne.
    unfold apart. cbn [rect_x rect_y rect_w rect_h]. unfold CELL_SIZE in *.
    destruct (decide (x1 = x2)) as [->|Hx]; [|lia].
    destruct (decide (y1 = y2)) as [->|Hy]; [done|lia].
Qed.

Lemma render_within_window_witness :
  (∀ r, r ∈ live_rects 4 4 sample_grid →
     0 <= rect_x r ∧ rect_x r + rect_w r <= 4 * CELL_SIZE
     ∧ 0 <= rect_y r ∧ rect_y r + rect_h r <= 4 * CELL_SIZE)
  ∧ (∀ r1 r2, r1 ∈ live_rects 4 4 sample_grid → r2 ∈ live_rects 4 4 sample_grid →
       r1 ≠ r2 → apart r1 r2).
Proof.
  assert (dims_ok 4 4) as Hdims by (unfold dims_ok, CInt.INT_MAX; lia).
  assert (window_ok 4 4) as Hwin by (unfold window_ok, CELL_SIZE, CInt.INT_MAX; lia).
  exact (render_within_window 4 4 sample_grid (live_rects 4 4 sample_grid)
           Hdims Hwin eq_refl eq_refl).
Defined.

(** ** The event loop (lines 99-139) *)

Lemma poll_events_sticky (queue : list SDL_Event) : poll_events queue true = true.
Proof.
  unfold poll_events. induction queue as [|e queue IH]; [done|].
  cbn [foldl]. by destruct e.
Qed.

Lemma poll_events_quit (queue : list SDL_Event) (quit : bool) :
  SDL_QUIT ∈ queue → poll_events queue quit = true.
Proof.
  revert quit. induction queue as [|e queue IH]; intros quit Hin.
  { by apply elem_of_nil in Hin. }
  apply elem_of_cons in Hin as [<-|Hin].
  - apply poll_events_sticky.
  - unfold poll_events in *. cbn [foldl]. by apply IH.
Qed.

Lemma poll_events_none (queue : list SDL_Event) (quit : bool) :
  SDL_QUIT ∉ queue → poll_events queue quit = quit.
Proof.
  revert quit. induction queue as [|e queue IH]; intros quit Hnin; [done|].
  apply not_elem_of_cons in Hnin as [Hne Hnin].
  unfold poll_events in *. cbn [foldl]. rewrite IH by done.
  by destruct e.
Qed.

Lemma frame_presented_spec (width height : Z) (s : sim) :
  dims_ok width height → wf_sim width height s →
  ∃ s', frame width height s = Some s' ∧ wf_sim width height s'
    ∧ frame_presented width height s
      = Some (s', live_rects width height (h_grid s')).
Proof.
  intros Hdims Hwf.
  destruct (frame_spec width height Hdims s Hwf) as (s' & Hrun & Hwf' & _).
  exists s'. split; [done|]. split; [done|].
  unfold frame_presented. rewrite Hrun. cbn [mbind option_bind].
  destruct Hwf' as (_ & _ & _ & Hh).
  by rewrite (render_spec width height Hdims).
Qed.

(** The frames shown by the loop are those of the successive states. *)
Lemma main_loop_shown (width height : Z) (queues : list (list SDL_Event))
    (s s' : sim) (shown shown' : list (list SDL_Rect)) (left : bool) :
  dims_ok width height → wf_sim width height s →
  main_loop width height queues s shown = Some (s', shown', left) →
  ∃ more, shown' = shown ++ more
    ∧ (length more ≤ length queues)%nat
    ∧ iterate (length more) (frame width height) s = Some s'
    ∧ ∀ j r, more !! j = Some r →
        ∃ sj, iterate (S j) (frame width height) s = Some sj
              ∧ r = live_rects width height (h_grid sj).
Proof.
  intros Hdims. revert s shown. induction queues as [|queue rest IH];
    intros s shown Hwf Hrun.
  { cbn in Hrun. injection Hrun as <- <- _. exists []. rewrite app_nil_r.
    split_and!; [done..|]. intros j r Hj. by destruct j. }
  cbn [main_loop] in Hrun.
  destruct (frame_presented_spec width height s Hdims Hwf) as (s1 & Hf & Hwf1 & Hfp).
  rewrite Hfp in Hrun. cbn [mbind option_bind fst snd] in Hrun.
  destruct (poll_events queue false).
  - injection Hrun as <- <- _. exists [live_rects width height (h_grid s1)].
    split_and!; [done|cbn; lia| |].
    + cbn [length iterate]. rewrite Hf. done.
    + intros [|j] r Hj; [|by destruct j].
      injection Hj as <-. exists s1. cbn [iterate]. rewrite Hf. done.
  - destruct (IH s1 _ Hwf1 Hrun) as (more & -> & Hlen & Hiter & Hshown).
    exists (live_rects width height (h_grid s1) :: more).
    split_and!; [by rewrite <- app_assoc|cbn; lia| |].
    + cbn [length iterate]. rewrite Hf. done.
    + intros [|j] r Hj.
      * injection Hj as <-. exists s1. cbn [iterate]. rewrite Hf. done.
      * destruct (Hshown j r Hj) as (sj & Hsj & ->). exists sj.
        split; [|done]. cbn [iterate] in *. rewrite Hf. done.
Qed.

Lemma main_loop_runs (width height : Z) (queues : list (list SDL_Event))
    (s : sim) (shown : list (list SDL_Rect)) :
  dims_ok width height → wf_sim width height s →
  ∃ s' shown' left, main_loop width height queues s shown = Some (s', shown', left).
Proof.
  intros Hdims. revert s shown. induction queues as [|queue rest IH];
    intros s shown Hwf.
  { by eexists _, _, _. }
  cbn [main_loop].
  destruct (frame_presented_spec width height s Hdims Hwf) as (s1 & _ & Hwf1 & ->).
  cbn [mbind option_bind fst snd].
  destruct (poll_events queue false); [by eexists _, _, _|]. by apply IH.
Qed.

Lemma main_loop_running (width height : Z) (queues : list (list SDL_Event))
    (s : sim) (shown : list (list SDL_Rect)) :
  dims_ok width height → wf_sim width height s →
  Forall (λ queue, SDL_QUIT ∉ queue) queues →
  ∃ s' more, main_loop width height queues s shown = Some (s', shown ++ more, false)
    ∧ iterate (length queues) (frame width height) s = Some s'
    ∧ length more = length queues.
Proof.
  intros Hdims Hwf Hnone. revert s shown Hwf.
  induction Hnone as [|queue rest Hq Hrest IH]; intros s shown Hwf.
  { exists s, []. by rewrite app_nil_r. }
  cbn [main_loop length iterate].
  destruct (frame_presented_spec width height s Hdims Hwf) as (s1 & -> & Hwf1 & ->).
  cbn [mbind option_bind fst snd]. rewrite poll_events_none by done.
  destruct (IH s1 (shown ++ [live_rects width height (h_grid s1)]) Hwf1)
    as (s' & more & -> & Hiter & Hlen).
  exists s', (live_rects width height (h_grid s1) :: more).
  rewrite <- app_assoc. split_and!; [done|done|cbn; lia].
Qed.

Lemma main_loop_quits (width height : Z) (pre : list (list SDL_Event))
    (queue : list SDL_Event) (post : list (list SDL_Event))
    (s : sim) (shown : list (list SDL_Rect)) :
  dims_ok width height → wf_sim width height s →
  Forall (λ queue, SDL_QUIT ∉ queue) pre → SDL_QUIT ∈ queue →
  ∃ s' more, main_loop width height (pre ++ queue :: post) s shown
             = Some (s', shown ++ more, true)
    ∧ iterate (S (length pre)) (frame width height) s = Some s'
    ∧ length more = S (length pre).
Proof.
  intros Hdims Hwf Hnone Hquit. revert s shown Hwf.
  induction Hnone as [|q0 rest Hq Hrest IH]; intros s shown Hwf.
  - cbn [app main_loop length iterate].
    destruct (frame_presented_spec width height s Hdims Hwf) as (s1 & -> & Hwf1 & ->).
    cbn [mbind option_bind fst snd]. rewrite poll_events_quit by done.
    by exists s1, [live_rects width height (h_grid s1)].
  - cbn [app main_loop length]. cbn [iterate].
    destruct (frame_presented_spec width height s Hdims Hwf) as (s1 & -> & Hwf1 & ->).
    cbn [mbind option_bind fst snd]. rewrite poll_events_none by done.
    destruct (IH s1 (shown ++ [live_rects width height (h_grid s1)]) Hwf1)
      as (s' & more & -> & Hiter & Hlen).
    exists s', (live_rects width height (h_grid s1) :: more).
    rewrite <- app_assoc. split_and!; [done|done|cbn; lia].
Qed.

(** X14.  The loop is left by [SDL_QUIT] and by nothing else.  While no
    queue polled holds [SDL_QUIT] the loop keeps running, one frame per
    poll.  The frame in which [SDL_QUIT] is polled is still carried out in
    full (updated when due, drawn and counted), whatever else its queue
    holds; then the loop is left, and what would be polled later has no
    effect. *)
Theorem loop_left_by_quit (width height : Z) (s : sim) :
  dims_ok width height → wf_sim width height s →
  (∀ queues, Forall (λ queue, SDL_QUIT ∉ queue) queues →
     ∃ s' shown, main_loop width height queues s [] = Some (s', shown, false)
       ∧ iterate (length queues) (frame width height) s = Some s'
       ∧ length shown = length queues)
  ∧ (∀ pre queue post, Forall (λ queue, SDL_QUIT ∉ queue) pre →
       SDL_QUIT ∈ queue →
       ∃ s' shown, main_loop width height (pre ++ queue :: post) s []
                   = Some (s', shown, true)
         ∧ iterate (S (length pre)) (frame width height) s = Some s'
         ∧ length shown = S (length pre)).
Proof.
  intros Hdims Hwf. split.
  - intros queues Hnone.
    destruct (main_loop_running width height queues s [] Hdims Hwf Hnone)
      as (s' & more & Hrun & Hiter & Hlen).
    by exists s', more.
  - intros pre queue post Hnone Hquit.
    destruct (main_loop_quits width height pre queue post s [] Hdims Hwf Hnone Hquit)
      as (s' & more & Hrun & Hiter & Hlen).
    by exists s', more.
Qed.

Lemma loop_left_by_quit_witness :
  (∀ queues, Forall (λ queue, SDL_QUIT ∉ queue) queues →
     ∃ s' shown, main_loop 4 4 queues sample_sim [] = Some (s', shown, false)
       ∧ iterate (length queues) (frame 4 4) sample_sim = Some s'
       ∧ length shown = length queues)
  ∧ (∀ pre queue post, Forall (λ queue, SDL_QUIT ∉ queue) pre →
       SDL_QUIT ∈ queue →
       ∃ s' shown, main_loop 4 4 (pre ++ queue :: post) sample_sim []
                   = Some (s', shown, true)
         ∧ iterate (S (length pre)) (frame 4 4) sample_sim = Some s'
         ∧ length shown = S (length pre)).
Proof.
  assert (dims_ok 4 4) as Hdims by (unfold dims_ok, CInt.INT_MAX; lia).
  assert (wf_sim 4 4 sample_sim) as Hwf.
  { unfold wf_sim. split; [discriminate|]. split; [|split]; vm_compute; reflexivity. }
  exact (loop_left_by_quit 4 4 sample_sim Hdims Hwf).
Defined.

(** X15.  Every frame shows the generation reached: from a counter of 0
    and a host array equal to the current buffer, the frame presented in
    iteration [j] (counted from 0) consists of the squares of the live
    cells of generation [j / 6 + 1] of the buffer the loop started
    with. *)
Theorem shown_frames_follow_generations (width height : Z)
    (queues : list (list SDL_Event)) (s s' : sim)
    (shown : list (list SDL_Rect)) (left : bool) :
  dims_ok width height → wf_sim width height s →
  frameCount s = 0 → h_grid s = current s →
  Z.of_nat (length queues) <= CInt.INT_MAX →
  main_loop width height queues s [] = Some (s', shown, left) →
  ∀ j r, shown !! j = Some r →
    r = live_rects width height
          (Nat.iter (Z.to_nat (Z.of_nat j / 6 + 1)) (next_gen width height)
                    (current s)).
Proof.
  intros Hdims Hwf Hk Hh Hmax Hrun j r Hj.
  destruct (main_loop_shown width height queues s s' [] shown left Hdims Hwf Hrun)
    as (more & -> & Hlen & _ & Hshown).
  cbn [app] in Hj. pose proof (lookup_lt_Some _ _ _ Hj) as Hjlt.
  destruct (Hshown j r Hj) as (sj & Hsj & ->).
  destruct (frames_cadence width height (S j) s Hdims Hwf Hk)
    as (sj' & Hsj' & Hc & _ & _ & Hhj); [lia|].
  assert (sj' = sj) as -> by congruence.
  rewrite (Hhj Hh), Hc. do 3 f_equal.
  replace (Z.of_nat (S j) + 5) with (Z.of_nat j + 1 * 6) by lia.
  by rewrite Z.div_add.
Qed.

Lemma shown_frames_follow_generations_witness :
  ∃ s' shown left,
    main_loop 4 4 [[]; [SDL_OTHER]; [SDL_QUIT]] sample_sim [] = Some (s', shown, left)
    ∧ ∀ j r, shown !! j = Some r →
        r = live_rects 4 4
              (Nat.iter (Z.to_nat (Z.of_nat j / 6 + 1)) (next_gen 4 4)
                        (current sample_sim)).
Proof.
  assert (dims_ok 4 4) as Hdims by (unfold dims_ok, CInt.INT_MAX; lia).
  assert (wf_sim 4 4 sample_sim) as Hwf.
  { unfold wf_sim. split; [discriminate|]. split; [|split]; vm_compute; reflexivity. }
  assert (Z.of_nat (length [[]; [SDL_OTHER]; [SDL_QUIT]]) <= CInt.INT_MAX) as Hmax
    by (unfold CInt.INT_MAX; cbn; lia).
  destruct (main_loop_runs 4 4 [[]; [SDL_OTHER]; [SDL_QUIT]] sample_sim [] Hdims Hwf)
    as (s' & shown & left & Hrun).
  exists s', shown, left. split; [exact Hrun|].
  exact (shown_frames_follow_generations 4 4 [[]; [SDL_OTHER]; [SDL_QUIT]]
           sample_sim s' shown left Hdims Hwf eq_refl eq_refl Hmax Hrun).
Defined.
